(** * Academic Source Platform: prompt building, provider adapters and
      reply parsing

    A shallow embedding of [src/App.tsx] (the browser client) and of the
    Express relay's [POST /api/query] handler, with the fragment of the
    JavaScript platform they run on: strings as sequences of UTF-16 code
    units, [String.prototype.trim], backtracking regular expressions with
    [match] and [replace], JSON values with property access and
    truthiness. *)

From Stdlib Require Import String Ascii.
From Stdlib Require Import List NArith ZArith Bool Arith Lia DecimalString.
Import ListNotations.

(* ================================================================== *)
(** ** JavaScript strings *)
(* ================================================================== *)

Module JS.

(** A string is a sequence of UTF-16 code units. *)
Definition char := N.
Definition jsstring := list char.

(** ASCII literals.  [str] reads a literal as it stands; [strq] reads a
    back-quote as the double-quote character (code unit 34), which the
    source's template literals and regular expressions contain. *)
Definition str (s : string) : jsstring :=
  map N_of_ascii (list_ascii_of_string s).

Definition dquote : char := 34%N.
Definition LF : char := 10%N.

Definition strq (s : string) : jsstring :=
  map (fun c => if N.eqb c 96 then dquote else c) (str s).

Definition char_eqb (a b : char) : bool := N.eqb a b.

Fixpoint jseqb (a b : jsstring) : bool :=
  match a, b with
  | [], [] => true
  | x :: a', y :: b' => char_eqb x y && jseqb a' b'
  | _, _ => false
  end.

(** [s.startsWith(p)], returning what follows the prefix. *)
Fixpoint strip_prefix (p s : jsstring) : option jsstring :=
  match p, s with
  | [], _ => Some s
  | c :: p', d :: s' => if char_eqb c d then strip_prefix p' s' else None
  | _ :: _, [] => None
  end.

(** WhiteSpace and LineTerminator code units of ECMAScript, the ones
    [trim] strips. *)
Definition is_ws (c : char) : bool :=
  ((9 <=? c) && (c <=? 13) || (c =? 32) || (c =? 160) || (c =? 5760)
   || (8192 <=? c) && (c <=? 8202) || (c =? 8232) || (c =? 8233)
   || (c =? 8239) || (c =? 8287) || (c =? 12288) || (c =? 65279))%N.

Fixpoint trimStart (s : jsstring) : jsstring :=
  match s with
  | c :: t => if is_ws c then trimStart t else s
  | [] => []
  end.

Definition trimEnd (s : jsstring) : jsstring := rev (trimStart (rev s)).

(** [s.trim()] *)
Definition trim (s : jsstring) : jsstring := trimEnd (trimStart s).

(** [s.slice(0, n)] for a non-negative [n]. *)
Definition slice0 (n : nat) (s : jsstring) : jsstring := firstn n s.

(** [a.join(sep)] on an array of strings. *)
Fixpoint join (sep : jsstring) (l : list jsstring) : jsstring :=
  match l with
  | [] => []
  | [x] => x
  | x :: t => x ++ sep ++ join sep t
  end.

(** A template literal that spans several lines. *)
Definition lines (l : list jsstring) : jsstring := join [LF] l.

(* ------------------------------------------------------------------ *)
(** *** Regular expressions

    The matcher follows the continuation-passing semantics of the
    ECMAScript specification: a matcher takes a state and a continuation
    and backtracks through the alternatives in priority order.  Only the
    constructs of the source's five patterns are present; all of them
    carry the flag [s], so [Dot] accepts every code unit, and none
    carries [m], so [EndAnchor] holds at the end of the input only. *)

Inductive regex : Type :=
| Empty
| Char (c : char)
| Dot
| Seq (r1 r2 : regex)
| Star (greedy : bool) (r : regex)
| Group (r : regex)
| EndAnchor.

(** The remaining input and the text of capture group 1. *)
Record mstate : Type := MState { rest : jsstring; cap1 : option jsstring }.

Definition cont := mstate -> option mstate.

(** The iteration of a starred pattern.  [step] matches the body once;
    an iteration that consumes nothing is abandoned, as the
    specification's RepeatMatcher does, so [length (rest x)] iterations
    are all that can happen and [fuel] never runs out. *)
Fixpoint star_loop (greedy : bool) (step : mstate -> cont -> option mstate)
    (k : cont) (fuel : nat) (x : mstate) {struct fuel} : option mstate :=
  match fuel with
  | O => k x
  | S fuel' =>
      let again :=
        step x
          (fun y =>
             if length (rest y) <? length (rest x)
             then star_loop greedy step k fuel' y else None) in
      if greedy
      then match again with Some z => Some z | None => k x end
      else match k x with Some z => Some z | None => again end
  end.

Fixpoint rmatch (r : regex) (x : mstate) (k : cont) {struct r} : option mstate :=
  match r with
  | Empty => k x
  | Char c =>
      match rest x with
      | d :: t => if char_eqb c d then k (MState t (cap1 x)) else None
      | [] => None
      end
  | Dot =>
      match rest x with
      | _ :: t => k (MState t (cap1 x))
      | [] => None
      end
  | Seq r1 r2 => rmatch r1 x (fun y => rmatch r2 y k)
  | Star greedy r' => star_loop greedy (rmatch r') k (S (length (rest x))) x
  | Group r' =>
      rmatch r' x
        (fun y =>
           k (MState (rest y)
                (Some (firstn (length (rest x) - length (rest y)) (rest x)))))
  | EndAnchor =>
      match rest x with
      | [] => k x
      | _ :: _ => None
      end
  end.

(** A literal run of characters. *)
Fixpoint lit (l : jsstring) : regex :=
  match l with
  | [] => Empty
  | c :: t => Seq (Char c) (lit t)
  end.

(** The result of [RegExp.prototype.exec]: where the match starts, the
    matched text, what follows it, and capture group 1. *)
Record match_result : Type := MatchResult {
  index : nat;
  matched : jsstring;
  after : jsstring;
  group1 : option jsstring
}.

(** The leftmost start position at which the pattern matches. *)
Fixpoint exec_from (r : regex) (i : nat) (s : jsstring) : option match_result :=
  match rmatch r (MState s None) Some with
  | Some y =>
      Some (MatchResult i (firstn (length s - length (rest y)) s) (rest y) (cap1 y))
  | None =>
      match s with
      | [] => None
      | _ :: t => exec_from r (S i) t
      end
  end.

(** [s.match(r)] for a pattern without the flag [g]. *)
Definition match_ (r : regex) (s : jsstring) : option match_result :=
  exec_from r 0 s.

(** [s.replace(r, by)] for a pattern without the flag [g] and a
    replacement text without [$]: the first match is replaced. *)
Definition replace (r : regex) (by_ : jsstring) (s : jsstring) : jsstring :=
  match match_ r s with
  | Some mr => firstn (index mr) s ++ by_ ++ after mr
  | None => s
  end.

(* ------------------------------------------------------------------ *)
(** *** Values

    What [JSON.parse] and [res.json()] produce, with [undefined] for a
    missing property.  A number is kept as the decimal literal it was
    read from: it denotes the double nearest to
    [(-1)^neg * mant * 10^exp10]. *)

Record number : Type := Number { neg : bool; mant : N; exp10 : Z }.

Definition num (n : N) : number := Number false n 0.

(** A literal denotes [0] (or [-0]) when its mantissa is zero or when it
    lies at or below half the least positive double, [2^-1075]. *)
Definition number_is_zero (n : number) : bool :=
  (mant n =? 0)%N
  || ((exp10 n <? 0)%Z
      && (Z.of_N (mant n) * 2 ^ 1075 <=? 10 ^ (- exp10 n))%Z).

#[local] Unset Elimination Schemes.

Inductive value : Type :=
| VUndefined
| VNull
| VBool (b : bool)
| VNum (n : number)
| VStr (s : jsstring)
| VArr (l : list value)
| VObj (props : list (jsstring * value)).

#[local] Set Elimination Schemes.

(** ToBoolean *)
Definition truthy (v : value) : bool :=
  match v with
  | VUndefined | VNull => false
  | VBool b => b
  | VNum n => negb (number_is_zero n)
  | VStr [] => false
  | VStr (_ :: _) => true
  | VArr _ | VObj _ => true
  end.

(** [a || b] *)
Definition or_else (a b : value) : value := if truthy a then a else b.

(** What cuts an evaluation short: the errors the source's code can
    throw, and [Suspended], which is not an error: it records that an
    awaited promise never settles, so that nothing after the [await]
    runs and no [catch] or [finally] block is entered. *)
Inductive exn : Type :=
| Error (message : value)              (* [new Error(v)] *)
| TypeError_nullish (prop : jsstring)  (* a property read on undefined or null *)
| TypeError_not_a_function (prop : jsstring)
| SyntaxError_JSON                     (* text that is not JSON *)
| TypeError_fetch                      (* [fetch] rejected *)
| TypeError_to_primitive               (* ToString on a value it cannot convert *)
| Suspended.

Definition result (A : Type) : Type := (exn + A)%type.

Definition ret {A : Type} (a : A) : result A := inr a.
Definition throw {A : Type} (e : exn) : result A := inl e.
Definition bind {A B : Type} (m : result A) (f : A -> result B) : result B :=
  match m with
  | inl e => inl e
  | inr a => f a
  end.

Notation "x <- m ;; f" := (bind m (fun x => f))
  (at level 61, m at next level, right associativity).

(** The own property [key] of an object built by [JSON.parse]: of two
    members with one key the later one stands. *)
Fixpoint own (props : list (jsstring * value)) (key : jsstring) : value :=
  match props with
  | [] => VUndefined
  | (k, v) :: t =>
      match own t key with
      | VUndefined => if jseqb k key then v else VUndefined
      | w => w
      end
  end.

(** [v.name], for the property names the source reads ([error],
    [message], [choices], [content], [candidates], [parts], [text],
    [quotes]): none of them is a built-in property of a string, an
    array, a number or a boolean, so these yield [undefined]. *)
Definition get (v : value) (name : jsstring) : result value :=
  match v with
  | VUndefined | VNull => throw (TypeError_nullish name)
  | VObj props => ret (own props name)
  | VBool _ | VNum _ | VStr _ | VArr _ => ret VUndefined
  end.

(** [v?.name] *)
Definition get_opt (v : value) (name : jsstring) : result value :=
  match v with
  | VUndefined | VNull => ret VUndefined
  | _ => get v name
  end.

(** [v[0]] *)
Definition get0 (v : value) : result value :=
  match v with
  | VUndefined | VNull => throw (TypeError_nullish (str "0"))
  | VArr l => ret (nth 0 l VUndefined)
  | VStr (c :: _) => ret (VStr [c])
  | VStr [] => ret VUndefined
  | VObj props => ret (own props (str "0"))
  | VBool _ | VNum _ => ret VUndefined
  end.

(** A chain of property reads, such as [v.choices[0].message.content]. *)
Inductive step : Type :=
| Key (name : jsstring)
| First.

Fixpoint walk (v : value) (path : list step) : result value :=
  match path with
  | [] => ret v
  | Key name :: path' => x <- get v name ;; walk x path'
  | First :: path' => x <- get0 v ;; walk x path'
  end.

(** The member names of an object, in order. *)
Definition keys (v : value) : list jsstring :=
  match v with
  | VObj props => map fst props
  | _ => []
  end.

(** Whether ToString completes on a value built by [JSON.parse].  An
    object is converted through its [toString] member: an own member of
    that name is never a function, the conversion then falls back on
    [valueOf], which does not give a primitive either, and a TypeError
    is thrown; without such a member the inherited method answers.  An
    array is converted by joining the conversions of its elements. *)
Definition has_own (props : list (jsstring * value)) (key : jsstring) : bool :=
  existsb (fun kv => jseqb (fst kv) key) props.

Fixpoint stringable (v : value) : bool :=
  match v with
  | VObj props => negb (has_own props (str "toString"))
  | VArr l => forallb stringable l
  | _ => true
  end.

(** [throw new Error(v)], as it leaves the statement: building the Error
    converts [v] to a text, and a value that cannot be converted makes
    the construction itself throw a TypeError. *)
Definition new_Error (v : value) : exn :=
  if stringable v then Error v else TypeError_to_primitive.

(** The parts of the platform the source calls and the repository does
    not define: [JSON.parse] ([None] when it throws a SyntaxError), the
    text ToString gives for a value that is not a string (where it
    completes), and the message text of the errors the engine itself
    raises. *)
Class Engine : Type := {
  JSON_parse : jsstring -> option value;
  ToString_other : value -> jsstring;
  engine_message : exn -> jsstring
}.

(** The text ToString completes with. *)
Definition shown `{Engine} (v : value) : jsstring :=
  match v with
  | VStr s => s
  | _ => ToString_other v
  end.

(** ToString, as a template literal applies it to [${v}]. *)
Definition ToString `{Engine} (v : value) : result jsstring :=
  if stringable v then ret (shown v) else throw TypeError_to_primitive.

(** [e.message] *)
Definition message_of `{Engine} (e : exn) : jsstring :=
  match e with
  | Error (VStr s) => s
  | Error v => ToString_other v
  | _ => engine_message e
  end.

Definition parse_json `{Engine} (s : jsstring) : result value :=
  match JSON_parse s with
  | Some v => ret v
  | None => throw SyntaxError_JSON
  end.

(* ------------------------------------------------------------------ *)
(** *** HTTP *)

Record request : Type := Request {
  url : jsstring;
  method : jsstring;
  headers : list (jsstring * jsstring);
  body : value                (* the object handed to [JSON.stringify] *)
}.

(** A response: [res.ok] and the body text [res.json()] decodes. *)
Record response : Type := Response { ok : bool; text : jsstring }.

(** What becomes of a call: [fetch] rejects, or it fulfils and the body
    is read, or the call never settles (the source sets no timeout). *)
Inductive fetch_outcome : Type :=
| Rejected
| Fulfilled (res : response)
| Pending.

(** The network: what becomes of the call for each request. *)
Definition network := request -> fetch_outcome.

(** The value of the header [name] of a request, when it carries one. *)
Fixpoint lookup (name : jsstring) (hs : list (jsstring * jsstring))
  : option jsstring :=
  match hs with
  | [] => None
  | (n, v) :: t => if jseqb n name then Some v else lookup name t
  end.

Definition header (name : jsstring) (req : request) : option jsstring :=
  lookup name (headers req).

Definition await_fetch (o : fetch_outcome) : result response :=
  match o with
  | Rejected => throw TypeError_fetch
  | Fulfilled res => ret res
  | Pending => throw Suspended
  end.

End JS.

Import JS.

(* ================================================================== *)
(** ** The client: [src/App.tsx] *)
(* ================================================================== *)

Module Client.

Inductive Provider : Type := openai | claude | gemini.

Record Doc : Type := MkDoc {
  id : jsstring;
  name : jsstring;
  size : nat;
  uploadedAt : jsstring;
  text : jsstring
}.

(** The component's state, one field per [useState]. *)
Record State : Type := MkState {
  provider : Provider;
  apiKey : jsstring;
  docs : list Doc;
  pasteText : jsstring;
  pasteName : jsstring;
  prompt : jsstring;
  answer : jsstring;
  quotes : value;
  strictMode : bool;
  loading : bool;
  error : jsstring;
  preferredQuote : jsstring
}.

Definition init : State :=
  MkState openai [] [] [] [] [] [] (VArr []) true false [] [].

Definition POST : jsstring := str "POST".
Definition json_header : jsstring * jsstring :=
  (str "Content-Type", str "application/json").

Definition message (role content : jsstring) : value :=
  VObj [(str "role", VStr role); (str "content", VStr content)].

Definition openai_request (apiKey systemPrompt userMessage : jsstring) : request :=
  Request (str "/openai/v1/chat/completions") POST
    [json_header; (str "Authorization", str "Bearer " ++ apiKey)]
    (VObj [(str "model", VStr (str "gpt-4o"));
           (str "max_tokens", VNum (num 4000));
           (str "messages",
            VArr [message (str "system") systemPrompt;
                  message (str "user") userMessage])]).

Definition claude_request (apiKey systemPrompt userMessage : jsstring) : request :=
  Request (str "/claude/v1/messages") POST
    [json_header;
     (str "x-api-key", apiKey);
     (str "anthropic-version", str "2023-06-01");
     (str "anthropic-dangerous-direct-browser-access", str "true")]
    (VObj [(str "model", VStr (str "claude-sonnet-4-20250514"));
           (str "max_tokens", VNum (num 4000));
           (str "system", VStr systemPrompt);
           (str "messages", VArr [message (str "user") userMessage])]).

Definition gemini_request (apiKey systemPrompt userMessage : jsstring) : request :=
  Request (str "/gemini/v1beta/models/gemini-1.5-pro:generateContent?key=" ++ apiKey)
    POST
    [json_header]
    (VObj [(str "contents",
            VArr [VObj [(str "parts",
                         VArr [VObj [(str "text",
                                      VStr (systemPrompt ++ [LF; LF] ++ userMessage))]])]]);
           (str "generationConfig",
            VObj [(str "maxOutputTokens", VNum (num 4000))])]).

(** The request [callAI] hands to [fetch]. *)
Definition request_of (p : Provider) (apiKey systemPrompt userMessage : jsstring)
  : request :=
  match p with
  | openai => openai_request apiKey systemPrompt userMessage
  | claude => claude_request apiKey systemPrompt userMessage
  | gemini => gemini_request apiKey systemPrompt userMessage
  end.

(** [data.error?.message || fallback] *)
Definition error_message (data : value) (fallback : jsstring) : result value :=
  e <- get data (str "error") ;;
  m <- get_opt e (str "message") ;;
  ret (or_else m (VStr fallback)).

Definition fallback_of (p : Provider) : jsstring :=
  match p with
  | openai => str "OpenAI error"
  | claude => str "Claude error"
  | gemini => str "Gemini error"
  end.

(** The path to the reply text in a success body: lines 34, 50, 64. *)
Definition reply_path (p : Provider) : list step :=
  match p with
  | openai => [Key (str "choices"); First; Key (str "message"); Key (str "content")]
  | claude => [Key (str "content"); First; Key (str "text")]
  | gemini =>
      [Key (str "candidates"); First; Key (str "content"); Key (str "parts");
       First; Key (str "text")]
  end.

Definition reply_of (p : Provider) (data : value) : result value :=
  walk data (reply_path p).

Section WithEngine.

Context `{Engine}.

(** What follows [await fetch(...)] in each branch of [callAI]. *)
Definition after_fetch (p : Provider) (o : fetch_outcome) : result value :=
  res <- await_fetch o ;;
  data <- parse_json (JS.text res) ;;
  if negb (ok res)
  then m <- error_message data (fallback_of p) ;; throw (new_Error m)
  else r <- reply_of p data ;; ret (or_else r (VStr [])).

(** [callAI]: the requests issued, and the reply or the exception.  The
    closing [throw new Error('Unknown provider')] is out of reach: the
    three constructors are all of [Provider]. *)
Definition callAI (net : network) (p : Provider)
    (apiKey systemPrompt userMessage : jsstring)
  : list request * result value :=
  let req := request_of p apiKey systemPrompt userMessage in
  ([req], after_fetch p (net req)).

(** The two system instructions of [onQuery], verbatim. *)
Definition strict_prompt : jsstring := lines
  [strq "You are a strict academic assistant. Answer ONLY with exact quotes from the documents.";
   strq "Format:";
   strq "[1] `exact quote` (document name, p. X)";
   strq "[2] `exact quote` (document name, p. X)";
   strq "[3] `exact quote` (document name, p. X)";
   [];
   strq "End with:";
   strq "QUOTES_JSON:{`quotes`:[{`id`:`q1`,`quote`:`text`,`source`:`doc name`,`page`:1,`score`:0.95},{`id`:`q2`,`quote`:`text`,`source`:`doc name`,`page`:2,`score`:0.90},{`id`:`q3`,`quote`:`text`,`source`:`doc name`,`page`:3,`score`:0.85}]}";
   [];
   strq "Preserve Hebrew exactly. If no evidence: `Insufficient evidence.`"].

Definition relaxed_prompt : jsstring := lines
  [strq "You are an academic assistant. Answer using only the provided documents. Cite sources.";
   strq "Preserve Hebrew exactly.";
   strq "End with: QUOTES_JSON:{`quotes`:[{`id`:`q1`,`quote`:`text`,`source`:`doc name`,`page`:1,`score`:0.90}]}"].

Definition marker : jsstring := str "QUOTES_JSON:".

(** Line 125, [/QUOTES_JSON:(\{"quotes":\[.* )/s]: the marker, then group 1
    made of the opening of the object and a greedy run to the end. *)
Definition re_trailer : regex :=
  Seq (lit marker) (Group (Seq (lit (strq "{`quotes`:[")) (Star true Dot))).

(** [/\]\}.*$/s] *)
Definition re_after_close : regex :=
  Seq (lit (str "]}")) (Seq (Star true Dot) EndAnchor).

(** [/QUOTES_JSON:.*$/s] *)
Definition re_from_marker : regex :=
  Seq (lit marker) (Seq (Star true Dot) EndAnchor).

(** [docs.map(d => `--- ${d.name} ---\n${d.text.slice(0, 8000)}`).join('\n\n')] *)
Definition block (cap : nat) (d : Doc) : jsstring :=
  str "--- " ++ name d ++ str " ---" ++ [LF] ++ slice0 cap (text d).

Definition context_of (cap : nat) (ds : list Doc) : jsstring :=
  join [LF; LF] (map (block cap) ds).

Definition cap : nat := 8 * 1000.

Definition user_message (context prompt : jsstring) : jsstring :=
  str "Documents:" ++ [LF; LF] ++ context ++ [LF; LF] ++ str "Question: " ++ prompt.

(** The [try] block around [JSON.parse]: any exception leaves
    [parsedQuotes] at its initial [[]]. *)
Definition quotes_or_empty (r : result value) : value :=
  match r with
  | inr q => q
  | inl _ => VArr []
  end.

(** Lines 124 to 131: the quotes read from the reply. *)
Definition parsedQuotes (fullText : jsstring) : value :=
  match match_ re_trailer fullText with
  | Some jsonMatch =>
      quotes_or_empty
        (match group1 jsonMatch with
         | None => throw (TypeError_nullish (str "replace"))
         | Some g =>
             let raw := replace re_after_close (str "]}") g in
             d <- parse_json raw ;;
             q <- get d (str "quotes") ;;
             ret (or_else q (VArr []))
         end)
  | None => VArr []
  end.

(** The text line 129 hands to [JSON.parse]: group 1 of the match, cut
    after its first closing [bracket, brace] pair. *)
Definition raw_of (fullText : jsstring) : option jsstring :=
  match match_ re_trailer fullText with
  | Some jsonMatch =>
      match group1 jsonMatch with
      | Some g => Some (replace re_after_close (str "]}") g)
      | None => None
      end
  | None => None
  end.

(** Line 132: the answer shown. *)
Definition answer_of (fullText : jsstring) : jsstring :=
  trim (replace re_from_marker [] fullText).

(** The environment of [addText]: [Date.now()] as text and
    [new Date().toLocaleString()]. *)
Record clock : Type := Clock { now : jsstring; localeString : jsstring }.

Definition addText (c : clock) (st : State) : State :=
  match trim (pasteText st) with
  | [] => st
  | _ :: _ =>
      let doc :=
        MkDoc (now c)
          (match trim (pasteName st) with [] => str "Document" | n => n end)
          (length (pasteText st))
          (localeString c)
          (pasteText st) in
      MkState (provider st) (apiKey st) (docs st ++ [doc]) [] []
        (prompt st) (answer st) (quotes st) (strictMode st) (loading st)
        (error st) (preferredQuote st)
  end.

Definition removeDoc (doc : Doc) (st : State) : State :=
  MkState (provider st) (apiKey st)
    (filter (fun x => negb (jseqb (id x) (id doc))) (docs st))
    (pasteText st) (pasteName st)
    (prompt st) (answer st) (quotes st) (strictMode st) (loading st)
    (error st) (preferredQuote st).

Definition clearAll (st : State) : State :=
  MkState (provider st) (apiKey st) [] (pasteText st) (pasteName st)
    (prompt st) [] (VArr []) (strictMode st) (loading st)
    (error st) [].

(** The state after line 102. *)
Definition started (st : State) : State :=
  MkState (provider st) (apiKey st) (docs st) (pasteText st) (pasteName st)
    (prompt st) [] (VArr []) (strictMode st) true [] (preferredQuote st).

Definition succeeded (st : State) (a : jsstring) (q : value) : State :=
  MkState (provider st) (apiKey st) (docs st) (pasteText st) (pasteName st)
    (prompt st) a q (strictMode st) false (error st) (preferredQuote st).

Definition failed (st : State) (e : jsstring) : State :=
  MkState (provider st) (apiKey st) (docs st) (pasteText st) (pasteName st)
    (prompt st) (answer st) (quotes st) (strictMode st) false e
    (preferredQuote st).

Definition is_empty (s : jsstring) : bool :=
  match s with [] => true | _ :: _ => false end.

(** The guard of line 101. *)
Definition blocked (st : State) : bool :=
  is_empty (trim (prompt st))
  || (length (docs st) =? 0)
  || is_empty (trim (apiKey st)).

Definition system_prompt (strict : bool) : jsstring :=
  if strict then strict_prompt else relaxed_prompt.

(** The request a query issues: lines 105 to 122. *)
Definition query_request (st : State) : request :=
  request_of (provider st) (apiKey st) (system_prompt (strictMode st))
    (user_message (context_of cap (docs st)) (prompt st)).

(** [onQuery]: the state once the handler has settled, and the requests
    it issued.  While the call never settles the handler stays at its
    [await], past line 102 and before any [catch] or [finally]. *)
Definition onQuery (net : network) (st : State) : State * list request :=
  if blocked st then (st, [])
  else
    let st1 := started st in
    let context := context_of cap (docs st) in
    let systemPrompt := system_prompt (strictMode st) in
    let '(reqs, r) :=
      callAI net (provider st) (apiKey st) systemPrompt
        (user_message context (prompt st)) in
    match r with
    | inr (VStr fullText) =>
        (succeeded st1 (answer_of fullText) (parsedQuotes fullText), reqs)
    | inr _ =>
        (failed st1 (message_of (TypeError_not_a_function (str "match"))), reqs)
    | inl Suspended =>
        (st1, reqs)
    | inl e =>
        (failed st1 (message_of e), reqs)
    end.

End WithEngine.

End Client.

(* ================================================================== *)
(** ** The relay: the Express handlers of the server file

    The server file as committed holds stray text between its constants
    (lines 8 to 14); the handlers are embedded as they are written. *)
(* ================================================================== *)

Module Relay.

(** An entry of [corpus].  [POST /api/text] stores [name || 'Document']
    with whatever value the request carried as [name]; [text] has passed
    [text?.trim()]. *)
Record doc : Type := MkDoc { id : jsstring; name : value; text : jsstring }.

(** What a handler does with [res]: the status and the JSON sent, or an
    exception that escapes the handler, or nothing while the handler
    stays at an [await] that never settles. *)
Inductive reply : Type :=
| Sent (status : nat) (json : value)
| Escaped (e : exn)
| Unanswered.

Definition OPENAI_API_KEY : jsstring := [].

Definition marker : jsstring := str "QUOTES_JSON:".

(** Line 80, [/QUOTES_JSON:(\{"quotes":\[.*?\]\})/s] *)
Definition re_quotes : regex :=
  Seq (lit marker)
    (Group (Seq (lit (strq "{`quotes`:["))
              (Seq (Star false Dot) (lit (str "]}"))))).

(** Line 84, [/QUOTES_JSON:\{.*?\}/s] *)
Definition re_block : regex :=
  Seq (lit marker)
    (Seq (lit (str "{")) (Seq (Star false Dot) (lit (str "}")))).

Definition strict_prompt : jsstring := lines
  [strq "You are a strict academic assistant. Answer ONLY with exact quotes from the documents below.";
   strq "Format your response as:";
   strq "[1] `exact quote from document` (source name, p. X)";
   strq "[2] `exact quote from document` (source name, p. X)";
   strq "[3] `exact quote from document` (source name, p. X)";
   [];
   strq "Then add this JSON block at the end:";
   strq "QUOTES_JSON:{`quotes`:[{`id`:`q1`,`quote`:`exact text`,`source`:`name`,`page`:1,`score`:0.95},{`id`:`q2`,`quote`:`exact text`,`source`:`name`,`page`:2,`score`:0.90},{`id`:`q3`,`quote`:`exact text`,`source`:`name`,`page`:3,`score`:0.85}]}";
   [];
   strq "Preserve Hebrew text exactly as it appears. If no relevant evidence found, say: `Insufficient evidence.`"].

Definition relaxed_prompt : jsstring := lines
  [strq "You are an academic assistant. Answer using only the provided documents. Cite sources inline.";
   strq "Then add: QUOTES_JSON:{`quotes`:[{`id`:`q1`,`quote`:`text`,`source`:`name`,`page`:1,`score`:0.90}]}";
   strq "Preserve Hebrew text exactly."].

Definition cap : nat := 15 * 1000.

Definition failure (status : nat) (msg : jsstring) : reply :=
  Sent status (VObj [(str "success", VBool false); (str "error", VStr msg)]).

Definition no_documents : reply :=
  Sent 200
    (VObj [(str "success", VBool true);
           (str "answer", VStr (str "No documents loaded. Please paste your text first."));
           (str "quotes", VArr [])]).

Definition success (answer : jsstring) (quotes : value) : reply :=
  Sent 200
    (VObj [(str "success", VBool true);
           (str "answer", VStr answer);
           (str "quotes", quotes)]).

(** A member of [req.body ?? {}], as destructuring reads it. *)
Definition field (body : value) (key : jsstring) : value :=
  match body with
  | VObj props => own props key
  | _ => VUndefined
  end.

(** [!v?.trim()]: [inl] when the call throws. *)
Definition blank (v : value) : result bool :=
  match v with
  | VUndefined | VNull => ret true
  | VStr s => ret (match trim s with [] => true | _ :: _ => false end)
  | _ => throw (TypeError_not_a_function (str "trim"))
  end.

Definition openai_request (systemPrompt userMessage : jsstring) : request :=
  Request (str "https://api.openai.com/v1/chat/completions") (str "POST")
    [(str "Content-Type", str "application/json");
     (str "Authorization", str "Bearer " ++ OPENAI_API_KEY)]
    (VObj [(str "model", VStr (str "gpt-4o"));
           (str "max_tokens", VNum (num 2000));
           (str "messages",
            VArr [Client.message (str "system") systemPrompt;
                  Client.message (str "user") userMessage])]).

Section WithEngine.

Context `{Engine}.

(** [`${v}`]: the conversion throws on a value it cannot convert. *)
Definition to_text (v : value) : result jsstring := ToString v.

(** [POST /api/text]; [now] is [`${Date.now()}`] and [iso] is
    [new Date().toISOString()].  The document is pushed on line 29; the
    [console.log] of line 30 then converts its name, and throws before
    the reply of line 31 when the name cannot be converted. *)
Definition post_text (now iso : jsstring) (body : value) (corpus : list doc)
  : list doc * reply :=
  match blank (field body (str "text")) with
  | inl e => (corpus, Escaped e)
  | inr true => (corpus, failure 400 (str "No text provided"))
  | inr false =>
      match field body (str "text") with
      | VStr t =>
          let d := MkDoc now (or_else (field body (str "name")) (VStr (str "Document"))) t in
          match to_text (name d) with
          | inl e => (corpus ++ [d], Escaped e)
          | inr _ =>
              (corpus ++ [d],
               Sent 200
                 (VObj [(str "success", VBool true);
                        (str "document",
                         VObj [(str "id", VStr now);
                               (str "name", name d);
                               (str "size", VNum (num (N.of_nat (length t))));
                               (str "uploadedAt", VStr iso)])]))
          end
      | _ => (corpus, Escaped (TypeError_not_a_function (str "trim")))
      end
  end.

(** [DELETE /api/documents] *)
Definition delete_documents (corpus : list doc) : list doc * reply :=
  ([], Sent 200 (VObj [(str "success", VBool true)])).

(** Line 44: [corpus.map(d => ...).join('\n\n')].  The template converts
    each name in turn, so the first name that cannot be converted stops
    the map with its TypeError. *)
Definition block (cap : nat) (d : doc) : result jsstring :=
  n <- to_text (name d) ;;
  ret (str "--- " ++ n ++ str " ---" ++ [LF] ++ slice0 cap (text d)).

Fixpoint blocks (cap : nat) (ds : list doc) : result (list jsstring) :=
  match ds with
  | [] => ret []
  | d :: t =>
      b <- block cap d ;;
      bs <- blocks cap t ;;
      ret (b :: bs)
  end.

Definition context_of (cap : nat) (ds : list doc) : result jsstring :=
  bs <- blocks cap ds ;;
  ret (join [LF; LF] bs).

(** Lines 79 to 83 *)
Definition quotes_of (fullText : jsstring) : value :=
  match match_ re_quotes fullText with
  | Some jsonMatch =>
      Client.quotes_or_empty
        (match group1 jsonMatch with
         | None => throw SyntaxError_JSON
         | Some g =>
             d <- parse_json g ;;
             q <- get d (str "quotes") ;;
             ret (or_else q (VArr []))
         end)
  | None => VArr []
  end.

(** The text line 82 hands to [JSON.parse]: group 1 of the match. *)
Definition raw_of (fullText : jsstring) : option jsstring :=
  match match_ re_quotes fullText with
  | Some jsonMatch => group1 jsonMatch
  | None => None
  end.

(** Line 84 *)
Definition answer_of (fullText : jsstring) : jsstring :=
  trim (replace re_block [] fullText).

(** The [try] block of the handler, lines 62 to 85. *)
Definition forward (o : fetch_outcome) : result (jsstring * value) :=
  response <- await_fetch o ;;
  data <- parse_json (JS.text response) ;;
  if negb (ok response)
  then m <- Client.error_message data (str "OpenAI error") ;; throw (new_Error m)
  else
    r <- Client.reply_of Client.openai data ;;
    match or_else r (VStr []) with
    | VStr fullText => ret (answer_of fullText, quotes_of fullText)
    | _ => throw (TypeError_not_a_function (str "match"))
    end.

Definition system_prompt (strictQuotesOnly : value) : jsstring :=
  if truthy strictQuotesOnly then strict_prompt else relaxed_prompt.

(** [strictQuotesOnly = true] in the destructuring of line 40. *)
Definition strict_of (body : value) : value :=
  match field body (str "strictQuotesOnly") with
  | VUndefined => VBool true
  | v => v
  end.

(** The request the handler forwards once line 44 has built the
    context: lines 46 to 73.  The prompt is a text there, having passed
    line 41. *)
Definition query_request (body : value) (context : jsstring) : request :=
  openai_request (system_prompt (strict_of body))
    (Client.user_message context (shown (field body (str "prompt")))).

(** [POST /api/query]: the reply and the requests issued.  Line 44
    stands before the [try] block, so what it throws escapes the
    handler. *)
Definition post_query (net : network) (body : value) (corpus : list doc)
  : reply * list request :=
  let prompt := field body (str "prompt") in
  match blank prompt with
  | inl e => (Escaped e, [])
  | inr true => (failure 400 (str "Prompt is required"), [])
  | inr false =>
      if length corpus =? 0 then (no_documents, [])
      else
        match context_of cap corpus with
        | inl e => (Escaped e, [])
        | inr context =>
            let req := query_request body context in
            match forward (net req) with
            | inr (answer, quotes) => (success answer quotes, [req])
            | inl Suspended => (Unanswered, [req])
            | inl err => (failure 500 (message_of err), [req])
            end
        end
  end.

End WithEngine.

End Relay.

(* ================================================================== *)
(** ** The controls of the page: the guards in the JSX of [src/App.tsx] *)
(* ================================================================== *)

Module View.

(** Line 183, the Add button: [disabled={!pasteText.trim()}] *)
Definition add_disabled (st : Client.State) : bool :=
  Client.is_empty (trim (Client.pasteText st)).

(** Line 211, the Run button:
    [disabled={loading || !prompt.trim() || docs.length === 0 || !apiKey.trim()}] *)
Definition run_disabled (st : Client.State) : bool :=
  Client.loading st
  || Client.is_empty (trim (Client.prompt st))
  || (length (Client.docs st) =? 0)
  || Client.is_empty (trim (Client.apiKey st)).

(** Line 193, the Clear button: [docs.length > 0 && ...] *)
Definition clear_shown (st : Client.State) : bool :=
  0 <? length (Client.docs st).

End View.

(* ================================================================== *)
(** ** The development proxy: [src/vite.config.ts] *)
(* ================================================================== *)

Module Vite.

(** An entry of [server.proxy]: its key and its [target].  The
    [preview.proxy] table is the same. *)
Record route : Type := Route { key : jsstring; target : jsstring }.

Definition proxy : list route :=
  [Route (str "/openai") (str "https://api.openai.com");
   Route (str "/claude") (str "https://api.anthropic.com");
   Route (str "/gemini") (str "https://generativelanguage.googleapis.com")].

(** [rewrite: (path) => path.replace(/^\/openai/, '')] and its two
    siblings.  The pattern opens with [^] and carries no flag, so it is
    tried at the start of the path only; what it matches is removed. *)
Definition rewrite (key path : jsstring) : jsstring :=
  match rmatch (lit key) (MState path None) Some with
  | Some y => rest y
  | None => path
  end.

End Vite.

(* ================================================================== *)
(** ** A reference engine

    An executable [Engine] on which the examples below are evaluated: a
    recursive-descent reader of the JSON grammar (ECMA-404), and
    illustrative message texts.  The general theorems hold for every
    engine and do not unfold this one. *)
(* ================================================================== *)

Module Ref.

Definition is_json_ws (c : char) : bool :=
  ((c =? 32) || (c =? 9) || (c =? 10) || (c =? 13))%N.

Fixpoint skip_ws (s : jsstring) : jsstring :=
  match s with
  | c :: t => if is_json_ws c then skip_ws t else s
  | [] => []
  end.

Definition is_digit (c : char) : bool := ((48 <=? c) && (c <=? 57))%N.

Definition hex (c : char) : option N :=
  if is_digit c then Some (c - 48)%N
  else if ((97 <=? c) && (c <=? 102))%N then Some (c - 87)%N
  else if ((65 <=? c) && (c <=? 70))%N then Some (c - 55)%N
  else None.

Definition hex4 (a b c d : char) : option char :=
  match hex a, hex b, hex c, hex d with
  | Some x, Some y, Some z, Some w => Some (((x * 16 + y) * 16 + z) * 16 + w)%N
  | _, _, _, _ => None
  end.

Definition escape (c : char) : option char :=
  if (c =? 34)%N then Some 34%N        (* quotation mark *)
  else if (c =? 92)%N then Some 92%N   (* reverse solidus *)
  else if (c =? 47)%N then Some 47%N   (* solidus *)
  else if (c =? 98)%N then Some 8%N    (* b *)
  else if (c =? 102)%N then Some 12%N  (* f *)
  else if (c =? 110)%N then Some 10%N  (* n *)
  else if (c =? 114)%N then Some 13%N  (* r *)
  else if (c =? 116)%N then Some 9%N   (* t *)
  else None.

(** The characters of a string up to its closing quotation mark. *)
Fixpoint read_string (s : jsstring) : option (jsstring * jsstring) :=
  match s with
  | [] => None
  | c :: t =>
      if (c =? 34)%N then Some ([], t)
      else if (c =? 92)%N then
        match t with
        | e :: t' =>
            if (e =? 117)%N then
              match t' with
              | h1 :: h2 :: h3 :: h4 :: t'' =>
                  match hex4 h1 h2 h3 h4, read_string t'' with
                  | Some u, Some (r, k) => Some (u :: r, k)
                  | _, _ => None
                  end
              | _ => None
              end
            else
              match escape e, read_string t' with
              | Some u, Some (r, k) => Some (u :: r, k)
              | _, _ => None
              end
        | [] => None
        end
      else if (c <? 32)%N then None
      else
        match read_string t with
        | Some (r, k) => Some (c :: r, k)
        | None => None
        end
  end.

(** A run of digits: its value, its length, and what follows. *)
Fixpoint read_digits (acc : N) (n : nat) (s : jsstring) : N * nat * jsstring :=
  match s with
  | c :: t => if is_digit c then read_digits (acc * 10 + (c - 48)) (S n) t
              else (acc, n, s)
  | [] => (acc, n, s)
  end.

Definition read_exponent (s : jsstring) : option (Z * jsstring) :=
  match s with
  | c :: t =>
      if ((c =? 101) || (c =? 69))%N then
        let '(sign, t1) :=
          match t with
          | d :: t' =>
              if (d =? 45)%N then (true, t')
              else if (d =? 43)%N then (false, t')
              else (false, t)
          | [] => (false, t)
          end in
        match read_digits 0 0 t1 with
        | (_, O, _) => None
        | (e, S _, k) => Some (if sign then (- Z.of_N e)%Z else Z.of_N e, k)
        end
      else Some (0%Z, s)
  | [] => Some (0%Z, s)
  end.

Definition read_fraction (s : jsstring) : option (N * nat * jsstring) :=
  match s with
  | c :: t =>
      if (c =? 46)%N then
        match read_digits 0 0 t with
        | (_, O, _) => None
        | (f, S n, k) => Some (f, S n, k)
        end
      else Some (0%N, O, s)
  | [] => Some (0%N, O, s)
  end.

Definition read_number (s : jsstring) : option (number * jsstring) :=
  let '(sign, s1) :=
    match s with
    | c :: t => if (c =? 45)%N then (true, t) else (false, s)
    | [] => (false, s)
    end in
  match s1 with
  | c :: t =>
      if is_digit c then
        let '(i, _, k) :=
          if (c =? 48)%N then (0%N, 1, t) else read_digits 0 0 s1 in
        match read_fraction k with
        | Some (f, n, k1) =>
            match read_exponent k1 with
            | Some (e, k2) =>
                Some (Number sign (i * 10 ^ N.of_nat n + f)
                        (e - Z.of_nat n), k2)
            | None => None
            end
        | None => None
        end
      else None
  | [] => None
  end.

(** A value, the elements of an array after its opening bracket or after
    a comma, and the members of an object likewise. *)
Fixpoint read_value (fuel : nat) (s : jsstring) : option (value * jsstring) :=
  match fuel with
  | O => None
  | S fuel' =>
      match skip_ws s with
      | [] => None
      | c :: t =>
          if (c =? 123)%N then
            match skip_ws t with
            | d :: t' =>
                if (d =? 125)%N then Some (VObj [], t')
                else
                  match read_members fuel' (skip_ws t) with
                  | Some (ms, k) => Some (VObj ms, k)
                  | None => None
                  end
            | [] => None
            end
          else if (c =? 91)%N then
            match skip_ws t with
            | d :: t' =>
                if (d =? 93)%N then Some (VArr [], t')
                else
                  match read_elements fuel' t with
                  | Some (vs, k) => Some (VArr vs, k)
                  | None => None
                  end
            | [] => None
            end
          else if (c =? 34)%N then
            match read_string t with
            | Some (r, k) => Some (VStr r, k)
            | None => None
            end
          else
            match strip_prefix (str "true") (c :: t),
                  strip_prefix (str "false") (c :: t),
                  strip_prefix (str "null") (c :: t) with
            | Some k, _, _ => Some (VBool true, k)
            | _, Some k, _ => Some (VBool false, k)
            | _, _, Some k => Some (VNull, k)
            | None, None, None =>
                match read_number (c :: t) with
                | Some (n, k) => Some (VNum n, k)
                | None => None
                end
            end
      end
  end

with read_elements (fuel : nat) (s : jsstring) : option (list value * jsstring) :=
  match fuel with
  | O => None
  | S fuel' =>
      match read_value fuel' s with
      | Some (v, k) =>
          match skip_ws k with
          | c :: t =>
              if (c =? 93)%N then Some ([v], t)
              else if (c =? 44)%N then
                match read_elements fuel' t with
                | Some (vs, k') => Some (v :: vs, k')
                | None => None
                end
              else None
          | [] => None
          end
      | None => None
      end
  end

with read_members (fuel : nat) (s : jsstring)
  : option (list (jsstring * value) * jsstring) :=
  match fuel with
  | O => None
  | S fuel' =>
      match skip_ws s with
      | q :: t0 =>
          if (q =? 34)%N then
            match read_string t0 with
            | Some (key, k0) =>
                match skip_ws k0 with
                | colon :: t1 =>
                    if (colon =? 58)%N then
                      match read_value fuel' t1 with
                      | Some (v, k) =>
                          match skip_ws k with
                          | c :: t =>
                              if (c =? 125)%N then Some ([(key, v)], t)
                              else if (c =? 44)%N then
                                match read_members fuel' t with
                                | Some (ms, k') => Some ((key, v) :: ms, k')
                                | None => None
                                end
                              else None
                          | [] => None
                          end
                      | None => None
                      end
                    else None
                | [] => None
                end
            | None => None
            end
          else None
      | [] => None
      end
  end.

(** [JSON.parse]: one value, then nothing but white space. *)
Definition parse (s : jsstring) : option value :=
  match read_value (2 * length s + 2) s with
  | Some (v, k) =>
      match skip_ws k with
      | [] => Some v
      | _ :: _ => None
      end
  | None => None
  end.

Definition message_text (e : exn) : jsstring :=
  match e with
  | Error _ => []
  | TypeError_nullish p =>
      str "Cannot read properties of undefined (reading '" ++ p ++ str "')"
  | TypeError_not_a_function p => p ++ str " is not a function"
  | SyntaxError_JSON => str "Unexpected token in JSON"
  | TypeError_fetch => str "Failed to fetch"
  | TypeError_to_primitive => str "Cannot convert object to primitive value"
  | Suspended => []
  end.

Definition decimal (n : N) : jsstring :=
  str (DecimalString.NilZero.string_of_uint (N.to_uint n)).

(** ToString.  An integer literal prints as its digits; another number
    prints as mantissa and exponent, where an engine chooses the
    shortest literal that reads back to the same double. *)
Definition number_text (n : number) : jsstring :=
  if number_is_zero n then str "0"
  else
    (if neg n then str "-" else [])
    ++ (if (0 <=? exp10 n)%Z
        then decimal (mant n * 10 ^ Z.to_N (exp10 n))
        else decimal (mant n) ++ str "e-" ++ decimal (Z.to_N (- exp10 n))).

Fixpoint to_string (v : value) : jsstring :=
  match v with
  | VUndefined => str "undefined"
  | VNull => str "null"
  | VBool true => str "true"
  | VBool false => str "false"
  | VStr s => s
  | VNum n => number_text n
  | VArr l =>
      join (str ",")
        (map (fun x => match x with
                       | VUndefined | VNull => []
                       | _ => to_string x
                       end) l)
  | VObj _ => str "[object Object]"
  end.

#[export] Instance engine : Engine := {|
  JSON_parse := parse;
  ToString_other := to_string;
  engine_message := message_text
|}.

End Ref.

(* ================================================================== *)
(** ** Occurrences of a text in a string *)
(* ================================================================== *)

(** [needle] occurs somewhere in [s]. *)
Definition occurs (needle s : jsstring) : Prop :=
  exists a b, s = a ++ needle ++ b.

(** [a] is what precedes the first occurrence of [needle] in [s], and
    [b] what follows it. *)
Definition first_at (needle s a b : jsstring) : Prop :=
  s = a ++ needle ++ b /\
  forall a' b', s = a' ++ needle ++ b' -> length a <= length a'.

(** The string does not open with white space. *)
Definition no_lead (s : jsstring) : Prop :=
  match s with
  | c :: _ => is_ws c = false
  | [] => True
  end.

(** The opening of the trailer's object and the pair that closes it. *)
Definition opening : jsstring := strq "{`quotes`:[".
Definition closing : jsstring := str "]}".

(** The continuation of the relay's group once its lazy run has stopped:
    the closing pair, then the capture of what the group has read. *)
Definition relay_close (b : jsstring) : cont :=
  fun y =>
    rmatch (lit closing) y
      (fun y' =>
         Some (MState (rest y')
                 (Some (firstn (length (opening ++ b) - length (rest y'))
                          (opening ++ b))))).

(** The text before and the text after the first occurrence of
    [needle], when there is one. *)
Fixpoint split_at (needle s : jsstring) : option (jsstring * jsstring) :=
  match strip_prefix needle s with
  | Some t => Some ([], t)
  | None =>
      match s with
      | [] => None
      | c :: s' =>
          match split_at needle s' with
          | Some (a, b) => Some (c :: a, b)
          | None => None
          end
      end
  end.

(** The greedy and the lazy run of [Dot], as searches over the suffixes
    of the input: longest run first, or shortest run first. *)
Fixpoint greedy_dots (s : jsstring) (c : option jsstring) (k : cont)
  : option mstate :=
  match s with
  | [] => k (MState [] c)
  | _ :: t =>
      match greedy_dots t c k with
      | Some z => Some z
      | None => k (MState s c)
      end
  end.

Fixpoint lazy_dots (s : jsstring) (c : option jsstring) (k : cont)
  : option mstate :=
  match k (MState s c) with
  | Some z => Some z
  | None =>
      match s with
      | [] => None
      | _ :: t => lazy_dots t c k
      end
  end.

(* ================================================================== *)
(** ** Sample replies *)
(* ================================================================== *)

Module Sample.

(** The reply of the specification's worked example. *)
Definition answer_text : jsstring := strq "[1] `Hello world` (A, p. 1)".

Definition quotes_body : jsstring :=
  strq "{`id`:`q1`,`quote`:`Hello world`,`source`:`A`,`page`:1,`score`:0.9}".

Definition reply : jsstring :=
  (answer_text ++ [LF]) ++ Client.marker ++ opening ++ quotes_body ++ closing.

Definition quote1 : value :=
  VObj [(str "id", VStr (str "q1"));
        (str "quote", VStr (str "Hello world"));
        (str "source", VStr (str "A"));
        (str "page", VNum (num 1));
        (str "score", VNum (Number false 9 (-1)))].

Definition decoded : value := VObj [(str "quotes", VArr [quote1])].

(** A reply cut short inside the trailer. *)
Definition truncated : jsstring := strq "A QUOTES_JSON:{`quotes`:[{`id`:`q1`".

(** A reply that goes on after the trailer. *)
Definition trailing : jsstring :=
  strq "A QUOTES_JSON:{`quotes`:[{`id`:`q1`}]} as cited above".

Definition trailing_trailer : jsstring :=
  strq "{`quotes`:[{`id`:`q1`}]} as cited above".

Definition q1 : value := VObj [(str "id", VStr (str "q1"))].

(** A quote whose text holds the closing pair. *)
Definition bracketed_trailer : jsstring :=
  strq "{`quotes`:[{`id`:`q1`,`quote`:`see [3, {4]} there`}]}".

Definition bracketed : jsstring := str "A " ++ Client.marker ++ bracketed_trailer.

Definition bracketed_quote : value :=
  VObj [(str "id", VStr (str "q1"));
        (str "quote", VStr (str "see [3, {4]} there"))].

(** A reply that quotes the format before giving its trailer. *)
Definition echoed : jsstring :=
  strq "Format: QUOTES_JSON:{...} QUOTES_JSON:{`quotes`:[{`id`:`q1`}]}".

(** A reply without a trailer. *)
Definition plain : jsstring := str "  Insufficient evidence. ".

(** A session with one document, and the same corpus in the relay. *)
Definition doc_A : Client.Doc :=
  Client.MkDoc (str "1") (str "A") 11 (str "1/1/2025") (str "Hello world").

Definition session (p : Client.Provider) : Client.State :=
  Client.MkState p (str "sk-test") [doc_A] [] [] (str "What is this?")
    [] (VArr []) true false [] [].

Definition relay_body : value :=
  VObj [(str "prompt", VStr (str "What is this?"))].

Definition relay_corpus : list Relay.doc :=
  [Relay.MkDoc (str "1") (VStr (str "A")) (str "Hello world")].

(** A provider that answers every request with one response. *)
Definition always (res : response) : network := fun _ => Fulfilled res.

(** A request to the relay with a blank prompt. *)
Definition blank_body : value := VObj [(str "prompt", VStr (str "  "))].

(** A gateway's error page, and provider bodies for a failed call. *)
Definition error_page : jsstring := str "<html>502 Bad Gateway</html>".

Definition error_body : jsstring :=
  strq "{`error`:{`message`:`Incorrect API key provided`,`type`:`invalid_request_error`}}".

Definition error_data : value :=
  VObj [(str "error",
         VObj [(str "message", VStr (str "Incorrect API key provided"));
               (str "type", VStr (str "invalid_request_error"))])].

(** Success bodies of the three providers, each carrying the text
    [Hello]. *)
Definition hello_openai : jsstring :=
  strq "{`choices`:[{`message`:{`role`:`assistant`,`content`:`Hello`}}]}".

Definition hello_claude : jsstring :=
  strq "{`content`:[{`type`:`text`,`text`:`Hello`}]}".

Definition hello_gemini : jsstring :=
  strq "{`candidates`:[{`content`:{`parts`:[{`text`:`Hello`}]}}]}".

(** An OpenAI success body whose content is [reply]. *)
Definition reply_body : jsstring :=
  strq "{`choices`:[{`message`:{`content`:`[1] \`Hello world\` (A, p. 1)\nQUOTES_JSON:{\`quotes\`:[{\`id\`:\`q1\`,\`quote\`:\`Hello world\`,\`source\`:\`A\`,\`page\`:1,\`score\`:0.9}]}`}}]}".

(** An OpenAI success body whose content is [truncated]. *)
Definition truncated_body : jsstring :=
  strq "{`choices`:[{`message`:{`content`:`A QUOTES_JSON:{\`quotes\`:[{\`id\`:\`q1\``}}]}".

End Sample.

(* ================================================================== *)
(** ** Further sample responses and requests *)
(* ================================================================== *)

Module Scenario.

(** Success bodies without a reply text: a content that is [null], and
    an envelope without its list. *)
Definition null_content : jsstring :=
  strq "{`choices`:[{`message`:{`role`:`assistant`,`content`:null}}]}".

Definition null_content_data : value :=
  VObj [(str "choices",
         VArr [VObj [(str "message",
                      VObj [(str "role", VStr (str "assistant"));
                            (str "content", VNull)])]])].

Definition no_envelope : jsstring := strq "{`id`:`msg_1`,`type`:`message`}".

Definition no_envelope_props : list (jsstring * value) :=
  [(str "id", VStr (str "msg_1")); (str "type", VStr (str "message"))].

(** A reply with a bare marker before its trailer. *)
Definition bare_then_trailer : jsstring :=
  strq "See QUOTES_JSON: below. QUOTES_JSON:{`quotes`:[{`id`:`q1`}]} end".

(** A reply whose marker is followed by a space. *)
Definition spaced : jsstring :=
  strq "A QUOTES_JSON: {`quotes`:[{`id`:`q1`}]}".

(** Requests to the relay. *)
Definition numeric_prompt : value := VObj [(str "prompt", VNum (num 5))].

Definition relaxed_body : value :=
  VObj [(str "prompt", VStr (str "What is this?"));
        (str "strictQuotesOnly", VBool false)].

Definition text_body : value :=
  VObj [(str "name", VStr (str "B")); (str "text", VStr (str "xyz"))].

(** A document whose name cannot be converted to a text. *)
Definition unnamed_body : value :=
  VObj [(str "name", VObj [(str "toString", VNum (num 1))]);
        (str "text", VStr (str "xyz"))].

Definition unnamed_doc : Relay.doc :=
  Relay.MkDoc (str "2") (VObj [(str "toString", VNum (num 1))]) (str "xyz").

Definition unnamed_corpus : list Relay.doc := [unnamed_doc].

(** Three documents in the client's store. *)
Definition doc_B : Client.Doc :=
  Client.MkDoc (str "2") (str "B") 3 (str "1/1/2025") (str "xyz").

Definition doc_C : Client.Doc :=
  Client.MkDoc (str "3") (str "C") 2 (str "1/1/2025") (str "uv").

Definition three_documents : Client.State :=
  Client.MkState Client.openai (str "sk-test") [Sample.doc_A; doc_B; doc_C]
    [] [] (str "What is this?") [] (VArr []) true false [] [].

End Scenario.

(* ================================================================== *)
(** ** Facts about strings and matching *)
(* ================================================================== *)

Lemma char_eqb_eq (a b : char) : char_eqb a b = true <-> a = b.
Proof. unfold char_eqb. apply N.eqb_eq. Qed.

Lemma char_eqb_refl (a : char) : char_eqb a a = true.
Proof. apply char_eqb_eq. reflexivity. Qed.

Lemma strip_prefix_app (p t : jsstring) : strip_prefix p (p ++ t) = Some t.
Proof.
  induction p as [|c p IH]; simpl.
  - destruct t; reflexivity.
  - rewrite char_eqb_refl. exact IH.
Qed.

Lemma strip_prefix_Some (p s t : jsstring) :
  strip_prefix p s = Some t -> s = p ++ t.
Proof.
  revert s. induction p as [|c p IH]; intros s Hs.
  - destruct s; simpl in Hs; inversion Hs; reflexivity.
  - destruct s as [|d s]; simpl in Hs; [discriminate|].
    destruct (char_eqb c d) eqn:E; [|discriminate].
    apply char_eqb_eq in E. subst d. simpl. f_equal. apply IH. exact Hs.
Qed.

Lemma strip_prefix_None (p s : jsstring) :
  strip_prefix p s = None -> forall t, s <> p ++ t.
Proof.
  intros Hn t Heq. subst s. rewrite strip_prefix_app in Hn. discriminate.
Qed.

Lemma occurs_tail (needle : jsstring) (c : char) (s : jsstring) :
  occurs needle s -> occurs needle (c :: s).
Proof.
  intros (a & b & ->). exists (c :: a), b. reflexivity.
Qed.

Lemma occurs_infix (needle p s q : jsstring) :
  occurs needle s -> occurs needle (p ++ s ++ q).
Proof.
  intros (a & b & ->). exists (p ++ a), (b ++ q).
  repeat rewrite <- app_assoc. reflexivity.
Qed.

Lemma first_at_no_earlier (needle a b a1 a2 : jsstring) :
  first_at needle (a ++ needle ++ b) a b ->
  a = a1 ++ a2 -> a2 <> [] ->
  forall t, a2 ++ needle ++ b <> needle ++ t.
Proof.
  intros [_ Hmin] Ha Hne t Heq.
  specialize (Hmin a1 t).
  assert (Hlen : length a <= length a1).
  { apply Hmin. rewrite Ha at 1. rewrite <- app_assoc. rewrite Heq. reflexivity. }
  subst a. rewrite length_app in Hlen.
  destruct a2; [congruence|]. simpl in Hlen. lia.
Qed.

(** *** The matcher on literals and on runs of [Dot] *)

Lemma rmatch_lit (l : jsstring) (x : mstate) (k : cont) :
  rmatch (lit l) x k =
  match strip_prefix l (rest x) with
  | Some t => k (MState t (cap1 x))
  | None => None
  end.
Proof.
  revert x. induction l as [|c l IH]; intros [s cp]; simpl.
  - destruct s; reflexivity.
  - destruct s as [|d s]; [reflexivity|].
    destruct (char_eqb c d); [|reflexivity].
    rewrite IH. reflexivity.
Qed.

Lemma star_loop_dot_greedy (k : cont) (c : option jsstring) :
  forall fuel s, length s < fuel ->
  star_loop true (rmatch Dot) k fuel (MState s c) = greedy_dots s c k.
Proof.
  induction fuel as [|fuel IH]; intros s Hlt; [lia|].
  destruct s as [|d t]; simpl; [reflexivity|].
  assert (E : (length t <? S (length t)) = true) by (apply Nat.ltb_lt; lia).
  rewrite E. rewrite IH by (simpl in Hlt; lia). reflexivity.
Qed.

Lemma star_loop_dot_lazy (k : cont) (c : option jsstring) :
  forall fuel s, length s < fuel ->
  star_loop false (rmatch Dot) k fuel (MState s c) = lazy_dots s c k.
Proof.
  induction fuel as [|fuel IH]; intros s Hlt; [lia|].
  destruct s as [|d t]; simpl.
  - destruct (k (MState [] c)); reflexivity.
  - destruct (k (MState (d :: t) c)); [reflexivity|].
    assert (E : (length t <? S (length t)) = true) by (apply Nat.ltb_lt; lia).
    rewrite E. apply IH. simpl in Hlt; lia.
Qed.

Lemma rmatch_star_dot_greedy (s : jsstring) (c : option jsstring) (k : cont) :
  rmatch (Star true Dot) (MState s c) k = greedy_dots s c k.
Proof. apply star_loop_dot_greedy. simpl. lia. Qed.

Lemma rmatch_star_dot_lazy (s : jsstring) (c : option jsstring) (k : cont) :
  rmatch (Star false Dot) (MState s c) k = lazy_dots s c k.
Proof. apply star_loop_dot_lazy. simpl. lia. Qed.

Lemma greedy_dots_end (s : jsstring) (c : option jsstring) (k : cont) (z : mstate) :
  k (MState [] c) = Some z -> greedy_dots s c k = Some z.
Proof.
  intros Hk. induction s as [|d t IH]; simpl; [exact Hk|].
  rewrite IH. reflexivity.
Qed.

Lemma rmatch_seq_lit (l : jsstring) (r : regex) (s : jsstring)
    (c : option jsstring) (k : cont) :
  rmatch (Seq (lit l) r) (MState s c) k =
  match strip_prefix l s with
  | Some t => rmatch r (MState t c) k
  | None => None
  end.
Proof. simpl. rewrite rmatch_lit. reflexivity. Qed.

(** *** Leftmost matches *)

Lemma exec_from_none (r : regex) (s : jsstring) :
  (forall a1 a2, s = a1 ++ a2 -> rmatch r (MState a2 None) Some = None) ->
  forall i, exec_from r i s = None.
Proof.
  induction s as [|c s IH]; intros Hno i; simpl.
  - rewrite (Hno [] []); reflexivity.
  - rewrite (Hno [] (c :: s)) by reflexivity.
    apply IH. intros a1 a2 E. apply (Hno (c :: a1) a2). simpl. congruence.
Qed.

Lemma exec_from_leftmost (r : regex) (a t : jsstring) (y : mstate) :
  (forall a1 a2, a = a1 ++ a2 -> a2 <> [] ->
                 rmatch r (MState (a2 ++ t) None) Some = None) ->
  rmatch r (MState t None) Some = Some y ->
  forall i,
    exec_from r i (a ++ t) =
    Some (MatchResult (i + length a)
            (firstn (length t - length (rest y)) t) (rest y) (cap1 y)).
Proof.
  induction a as [|c a IH]; intros Hno Hy i.
  - simpl. rewrite Nat.add_0_r. destruct t; simpl; rewrite Hy; reflexivity.
  - assert (H0 := Hno [] (c :: a) eq_refl ltac:(discriminate)).
    simpl in H0 |- *. rewrite H0.
    rewrite IH; [f_equal; f_equal; lia | | exact Hy].
    intros a1 a2 E Hne. apply (Hno (c :: a1) a2); [simpl; congruence | exact Hne].
Qed.

Lemma replace_none (r : regex) (by_ s : jsstring) :
  (forall a1 a2, s = a1 ++ a2 -> rmatch r (MState a2 None) Some = None) ->
  replace r by_ s = s.
Proof.
  intros Hno. unfold replace, match_. rewrite exec_from_none by exact Hno.
  reflexivity.
Qed.

Lemma replace_leftmost (r : regex) (by_ a t : jsstring) (y : mstate) :
  (forall a1 a2, a = a1 ++ a2 -> a2 <> [] ->
                 rmatch r (MState (a2 ++ t) None) Some = None) ->
  rmatch r (MState t None) Some = Some y ->
  replace r by_ (a ++ t) = a ++ by_ ++ rest y.
Proof.
  intros Hno Hy. unfold replace, match_.
  rewrite (exec_from_leftmost r a t y Hno Hy). simpl.
  rewrite firstn_app, firstn_all, Nat.sub_diag. simpl.
  rewrite app_nil_r. reflexivity.
Qed.

(** A pattern that opens with a literal matches nowhere in a string the
    literal does not occur in, and nowhere before the literal's first
    occurrence. *)
Lemma seq_lit_absent (l : jsstring) (r : regex) (s : jsstring) :
  ~ occurs l s ->
  forall a1 a2, s = a1 ++ a2 ->
                rmatch (Seq (lit l) r) (MState a2 None) Some = None.
Proof.
  intros Hno a1 a2 E. rewrite rmatch_seq_lit.
  destruct (strip_prefix l a2) as [t|] eqn:P; [|reflexivity].
  exfalso. apply Hno. exists a1, t.
  apply strip_prefix_Some in P. congruence.
Qed.

Lemma seq_lit_before_first (l : jsstring) (r : regex) (a b : jsstring) :
  first_at l (a ++ l ++ b) a b ->
  forall a1 a2, a = a1 ++ a2 -> a2 <> [] ->
                rmatch (Seq (lit l) r) (MState (a2 ++ l ++ b) None) Some = None.
Proof.
  intros Hf a1 a2 E Hne. rewrite rmatch_seq_lit.
  destruct (strip_prefix l (a2 ++ l ++ b)) as [t|] eqn:P; [|reflexivity].
  exfalso. apply strip_prefix_Some in P.
  exact (first_at_no_earlier _ _ _ _ _ Hf E Hne _ P).
Qed.

(** Every string either has a first occurrence of a text or none. *)
Lemma first_or_absent (l s : jsstring) :
  (exists a b, first_at l s a b) \/ ~ occurs l s.
Proof.
  induction s as [|c s IH].
  - destruct (strip_prefix l []) as [t|] eqn:P.
    + left. exists [], t. split.
      * apply strip_prefix_Some in P. exact P.
      * intros; simpl; lia.
    + right. intros (a & b & E).
      destruct a; [|discriminate]. simpl in E.
      exact (strip_prefix_None _ _ P b E).
  - destruct (strip_prefix l (c :: s)) as [t|] eqn:P.
    + left. exists [], t. split.
      * apply strip_prefix_Some in P. exact P.
      * intros; simpl; lia.
    + destruct IH as [(a & b & E & Hmin)|Hno].
      * left. exists (c :: a), b. split; [simpl; congruence|].
        intros a' b' E'. destruct a' as [|c' a'].
        -- exfalso. exact (strip_prefix_None _ _ P b' E').
        -- simpl in E'. injection E' as _ E'. simpl.
           apply le_n_S. exact (Hmin a' b' E').
      * right. intros (a' & b' & E'). destruct a' as [|c' a'].
        -- exact (strip_prefix_None _ _ P b' E').
        -- simpl in E'. injection E' as _ E'. apply Hno. exists a', b'. exact E'.
Qed.

Lemma before_first_absent (l s a b : jsstring) :
  l <> [] -> first_at l s a b -> ~ occurs l a.
Proof.
  intros Hl [E Hmin] (x & y & Ea).
  assert (Hlen : length a <= length x).
  { apply (Hmin x (y ++ l ++ b)). rewrite E, Ea.
    repeat rewrite <- app_assoc. reflexivity. }
  rewrite Ea in Hlen. repeat rewrite length_app in Hlen.
  destruct l; [congruence|]. simpl in Hlen. lia.
Qed.

(** *** [trim] *)

Lemma trimStart_no_lead (s : jsstring) : no_lead (trimStart s).
Proof.
  induction s as [|c s IH]; simpl; [exact I|].
  destruct (is_ws c) eqn:E; [exact IH | simpl; exact E].
Qed.

Lemma trimStart_fixed (s : jsstring) : no_lead s -> trimStart s = s.
Proof.
  destruct s as [|c s]; simpl; [reflexivity|].
  intros ->. reflexivity.
Qed.

Lemma trimStart_suffix (s : jsstring) : exists p, s = p ++ trimStart s.
Proof.
  induction s as [|c s [p IH]]; [exists []; reflexivity|].
  simpl. destruct (is_ws c).
  - exists (c :: p). simpl. congruence.
  - exists []. reflexivity.
Qed.

Lemma trimStart_snoc (l : jsstring) (c : char) :
  is_ws c = false -> trimStart (l ++ [c]) = trimStart l ++ [c].
Proof.
  intros Hc. induction l as [|d l IH]; simpl.
  - rewrite Hc. reflexivity.
  - destruct (is_ws d); [exact IH | reflexivity].
Qed.

Lemma trimEnd_no_lead (s : jsstring) : no_lead s -> no_lead (trimEnd s).
Proof.
  destruct s as [|c s]; [intros _; exact I|].
  simpl. intros Hc. unfold trimEnd. simpl.
  rewrite trimStart_snoc by exact Hc.
  rewrite rev_app_distr. simpl. exact Hc.
Qed.

Lemma trim_infix (s : jsstring) : exists p q, s = p ++ trim s ++ q.
Proof.
  destruct (trimStart_suffix s) as [p Hp].
  destruct (trimStart_suffix (rev (trimStart s))) as [q Hq].
  exists p, (rev q). unfold trim, trimEnd.
  rewrite <- rev_app_distr, <- Hq, rev_involutive. exact Hp.
Qed.

Lemma trim_idempotent (s : jsstring) : trim (trim s) = trim s.
Proof.
  assert (H1 : no_lead (trim s)).
  { unfold trim. apply trimEnd_no_lead, trimStart_no_lead. }
  assert (H2 : no_lead (rev (trim s))).
  { unfold trim, trimEnd. rewrite rev_involutive. apply trimStart_no_lead. }
  unfold trim at 1. rewrite (trimStart_fixed _ H1).
  unfold trimEnd. rewrite (trimStart_fixed _ H2). apply rev_involutive.
Qed.

Lemma trim_absent (l s : jsstring) : ~ occurs l s -> ~ occurs l (trim s).
Proof.
  intros Hno Ho. apply Hno.
  destruct (trim_infix s) as (p & q & E). rewrite E.
  apply occurs_infix. exact Ho.
Qed.

(* ================================================================== *)
(** ** The client's reply parsing, in terms of occurrences *)
(* ================================================================== *)

Lemma marker_nonempty : Client.marker <> [].
Proof. discriminate. Qed.

Lemma dots_to_end (t : jsstring) (c : option jsstring) :
  rmatch (Seq (Star true Dot) EndAnchor) (MState t c) Some = Some (MState [] c).
Proof.
  change (rmatch (Seq (Star true Dot) EndAnchor) (MState t c) Some)
    with (rmatch (Star true Dot) (MState t c) (fun y => rmatch EndAnchor y Some)).
  rewrite rmatch_star_dot_greedy. apply greedy_dots_end. reflexivity.
Qed.

(** Line 132 cuts the reply at the first occurrence of the marker. *)
Lemma client_answer_cut (s a b : jsstring) :
  first_at Client.marker s a b -> Client.answer_of s = trim a.
Proof.
  intros Hf. assert (E := proj1 Hf). subst s.
  unfold Client.answer_of, Client.re_from_marker. f_equal.
  rewrite (replace_leftmost _ [] a (Client.marker ++ b) (MState [] None)).
  - simpl. apply app_nil_r.
  - apply seq_lit_before_first. exact Hf.
  - rewrite rmatch_seq_lit, strip_prefix_app. apply dots_to_end.
Qed.

Lemma client_answer_whole (s : jsstring) :
  ~ occurs Client.marker s -> Client.answer_of s = trim s.
Proof.
  intros Hno. unfold Client.answer_of, Client.re_from_marker. f_equal.
  apply replace_none. apply seq_lit_absent. exact Hno.
Qed.

Lemma client_no_quotes_without_marker `{Engine} (s : jsstring) :
  ~ occurs Client.marker s -> Client.parsedQuotes s = VArr [].
Proof.
  intros Hno. unfold Client.parsedQuotes, match_, Client.re_trailer.
  rewrite exec_from_none; [reflexivity|].
  apply seq_lit_absent. exact Hno.
Qed.

(** The answer never holds the marker. *)
Lemma client_answer_marker_free (s : jsstring) :
  ~ occurs Client.marker (Client.answer_of s).
Proof.
  destruct (first_or_absent Client.marker s) as [(a & b & Hf)|Hno].
  - rewrite (client_answer_cut s a b Hf). apply trim_absent.
    exact (before_first_absent _ _ _ _ marker_nonempty Hf).
  - rewrite (client_answer_whole s Hno). apply trim_absent. exact Hno.
Qed.

Lemma client_parse_idempotent `{Engine} (s : jsstring) :
  Client.answer_of (Client.answer_of s) = Client.answer_of s /\
  Client.parsedQuotes (Client.answer_of s) = VArr [].
Proof.
  split.
  - rewrite (client_answer_whole _ (client_answer_marker_free s)).
    unfold Client.answer_of. apply trim_idempotent.
  - apply client_no_quotes_without_marker. apply client_answer_marker_free.
Qed.

(** *** [split_at] decides occurrences *)

Lemma split_at_first (l s a b : jsstring) :
  split_at l s = Some (a, b) -> first_at l s a b.
Proof.
  revert a b. induction s as [|c s IH]; intros a b Hs.
  - simpl in Hs. destruct (strip_prefix l []) as [t|] eqn:P; [|discriminate].
    injection Hs as <- <-. split; [exact (strip_prefix_Some _ _ _ P)|].
    intros; simpl; lia.
  - simpl in Hs. destruct (strip_prefix l (c :: s)) as [t|] eqn:P.
    + injection Hs as <- <-. split; [exact (strip_prefix_Some _ _ _ P)|].
      intros; simpl; lia.
    + destruct (split_at l s) as [[a0 b0]|]; [|discriminate].
      injection Hs as <- <-. destruct (IH a0 b0 eq_refl) as [E Hmin].
      split; [simpl; congruence|].
      intros a' b' E'. destruct a' as [|c' a'].
      * exfalso. exact (strip_prefix_None _ _ P b' E').
      * simpl in E'. injection E' as _ E'. simpl.
        apply le_n_S. exact (Hmin a' b' E').
Qed.

Lemma split_at_absent (l s : jsstring) :
  split_at l s = None -> ~ occurs l s.
Proof.
  induction s as [|c s IH]; intros Hs (a & b & E).
  - simpl in Hs. destruct (strip_prefix l []) eqn:P; [discriminate|].
    destruct a; [|discriminate]. exact (strip_prefix_None _ _ P b E).
  - simpl in Hs. destruct (strip_prefix l (c :: s)) eqn:P; [discriminate|].
    destruct a as [|c' a].
    + exact (strip_prefix_None _ _ P b E).
    + destruct (split_at l s) as [[a0 b0]|]; [discriminate|].
      simpl in E. injection E as _ E. apply IH; [reflexivity|].
      exists a, b. exact E.
Qed.

(** *** The trailer patterns *)

Lemma rmatch_group (r : regex) (x : mstate) (k : cont) :
  rmatch (Group r) x k =
  rmatch r x
    (fun y => k (MState (rest y)
                   (Some (firstn (length (rest x) - length (rest y)) (rest x))))).
Proof. reflexivity. Qed.

Lemma rmatch_seq (r1 r2 : regex) (x : mstate) (k : cont) :
  rmatch (Seq r1 r2) x k = rmatch r1 x (fun y => rmatch r2 y k).
Proof. reflexivity. Qed.

(** Group 1 of line 125 takes everything from the opening to the end. *)
Lemma trailer_group (J : jsstring) (c : option jsstring) :
  rmatch (Group (Seq (lit opening) (Star true Dot))) (MState J c) Some =
  match strip_prefix opening J with
  | Some _ => Some (MState [] (Some J))
  | None => None
  end.
Proof.
  rewrite rmatch_group, rmatch_seq_lit.
  destruct (strip_prefix opening J) as [body|]; [|reflexivity].
  rewrite rmatch_star_dot_greedy.
  erewrite greedy_dots_end; [|reflexivity].
  simpl. rewrite Nat.sub_0_r, firstn_all. reflexivity.
Qed.

Lemma client_trailer_found (s a J body : jsstring) :
  first_at Client.marker s a J ->
  strip_prefix opening J = Some body ->
  match_ Client.re_trailer s =
  Some (MatchResult (length a) (Client.marker ++ J) [] (Some J)).
Proof.
  intros Hf Hb. assert (E := proj1 Hf). subst s.
  unfold match_, Client.re_trailer.
  rewrite (exec_from_leftmost _ a (Client.marker ++ J) (MState [] (Some J))).
  - cbn [rest]. cbn [cap1]. rewrite Nat.sub_0_r, firstn_all. reflexivity.
  - apply seq_lit_before_first. exact Hf.
  - rewrite rmatch_seq_lit, strip_prefix_app.
    change (strq "{`quotes`:[") with opening.
    rewrite trailer_group, Hb. reflexivity.
Qed.

(** Line 128 cuts after the first closing pair, and leaves a text
    without one as it is. *)
Lemma cut_after_first_close (g c d : jsstring) :
  first_at closing g c d ->
  replace Client.re_after_close closing g = c ++ closing.
Proof.
  intros Hf. assert (E := proj1 Hf). subst g.
  unfold Client.re_after_close. change (str "]}") with closing.
  rewrite (replace_leftmost _ closing c (closing ++ d) (MState [] None)).
  - cbn [rest]. rewrite app_nil_r. reflexivity.
  - apply seq_lit_before_first. exact Hf.
  - rewrite rmatch_seq_lit, strip_prefix_app. apply dots_to_end.
Qed.

Lemma cut_without_close (g : jsstring) :
  ~ occurs closing g ->
  replace Client.re_after_close closing g = g.
Proof.
  intros Hno. apply replace_none.
  unfold Client.re_after_close. change (str "]}") with closing.
  apply seq_lit_absent. exact Hno.
Qed.

Lemma client_raw_closed (s a J body c d : jsstring) :
  first_at Client.marker s a J ->
  strip_prefix opening J = Some body ->
  first_at closing J c d ->
  Client.raw_of s = Some (c ++ closing).
Proof.
  intros Hf Hb Hc. unfold Client.raw_of.
  rewrite (client_trailer_found s a J body Hf Hb). cbn [group1].
  change (str "]}") with closing.
  rewrite (cut_after_first_close J c d Hc). reflexivity.
Qed.

Lemma client_raw_open (s a J body : jsstring) :
  first_at Client.marker s a J ->
  strip_prefix opening J = Some body ->
  ~ occurs closing J ->
  Client.raw_of s = Some J.
Proof.
  intros Hf Hb Hc. unfold Client.raw_of.
  rewrite (client_trailer_found s a J body Hf Hb). cbn [group1].
  change (str "]}") with closing.
  rewrite (cut_without_close J Hc). reflexivity.
Qed.

(** [parsedQuotes] through [raw_of]. *)
Lemma client_quotes_of_raw `{Engine} (s : jsstring) :
  Client.parsedQuotes s =
  match Client.raw_of s with
  | Some raw =>
      Client.quotes_or_empty
        (d <- parse_json raw ;;
         q <- get d (str "quotes") ;;
         ret (or_else q (VArr [])))
  | None => VArr []
  end.
Proof.
  unfold Client.parsedQuotes, Client.raw_of.
  destruct (match_ Client.re_trailer s) as [jm|]; [|reflexivity].
  destruct (group1 jm); reflexivity.
Qed.

Lemma relay_quotes_of_raw `{Engine} (s : jsstring) :
  Relay.quotes_of s =
  match Relay.raw_of s with
  | Some raw =>
      Client.quotes_or_empty
        (d <- parse_json raw ;;
         q <- get d (str "quotes") ;;
         ret (or_else q (VArr [])))
  | None => VArr []
  end.
Proof.
  unfold Relay.quotes_of, Relay.raw_of.
  destruct (match_ Relay.re_quotes s) as [jm|]; [|reflexivity].
  destruct (group1 jm); reflexivity.
Qed.

(** *** The relay's lazy pattern *)

Lemma lazy_dots_unfold (s : jsstring) (c : option jsstring) (k : cont) :
  lazy_dots s c k =
  match k (MState s c) with
  | Some z => Some z
  | None => match s with [] => None | _ :: t => lazy_dots t c k end
  end.
Proof. destruct s; reflexivity. Qed.

Lemma first_at_tail (l : jsstring) (x : char) (a b : jsstring) :
  first_at l (x :: a ++ l ++ b) (x :: a) b -> first_at l (a ++ l ++ b) a b.
Proof.
  intros [_ Hmin]. split; [reflexivity|].
  intros a' b' E. specialize (Hmin (x :: a') b').
  simpl in Hmin. rewrite E in Hmin. specialize (Hmin eq_refl). lia.
Qed.

Lemma lazy_dots_first (l c d : jsstring) (cp : option jsstring) (k : cont)
    (z : mstate) :
  first_at l (c ++ l ++ d) c d ->
  (forall t, strip_prefix l t = None -> k (MState t cp) = None) ->
  k (MState (l ++ d) cp) = Some z ->
  lazy_dots (c ++ l ++ d) cp k = Some z.
Proof.
  intros Hf Hk Hz. induction c as [|x c IH].
  - rewrite lazy_dots_unfold. simpl app. rewrite Hz. reflexivity.
  - rewrite lazy_dots_unfold.
    rewrite Hk.
    + simpl app. apply IH. apply (first_at_tail l x). exact Hf.
    + destruct (strip_prefix l ((x :: c) ++ l ++ d)) as [t|] eqn:P; [|reflexivity].
      exfalso. apply strip_prefix_Some in P.
      refine (first_at_no_earlier l (x :: c) d [] (x :: c) Hf eq_refl _ t P).
      discriminate.
Qed.

Lemma firstn_prefix (a d : jsstring) :
  firstn (length (a ++ d) - length d) (a ++ d) = a.
Proof.
  rewrite length_app, Nat.add_sub, firstn_app, firstn_all, Nat.sub_diag.
  simpl. apply app_nil_r.
Qed.

(** Group 1 of line 80 runs from the opening to the first closing pair
    after it. *)
Lemma relay_group (body d : jsstring) :
  first_at closing (body ++ closing ++ d) body d ->
  rmatch
    (Group (Seq (lit opening) (Seq (Star false Dot) (lit closing))))
    (MState (opening ++ body ++ closing ++ d) None) Some =
  Some (MState d (Some (opening ++ body ++ closing))).
Proof.
  intros Hf. rewrite rmatch_group, rmatch_seq_lit, strip_prefix_app.
  rewrite rmatch_seq, rmatch_star_dot_lazy.
  apply lazy_dots_first; [exact Hf | |].
  - intros t Ht. rewrite rmatch_lit. cbn [rest]. rewrite Ht. reflexivity.
  - rewrite rmatch_lit. cbn [rest]. rewrite strip_prefix_app. cbn [rest].
    f_equal. f_equal. f_equal.
    replace (opening ++ body ++ closing ++ d)
      with ((opening ++ body ++ closing) ++ d)
      by (repeat rewrite <- app_assoc; reflexivity).
    apply firstn_prefix.
Qed.

Lemma relay_raw_closed (s a body d : jsstring) :
  first_at Relay.marker s a (opening ++ body ++ closing ++ d) ->
  first_at closing (body ++ closing ++ d) body d ->
  Relay.raw_of s = Some (opening ++ body ++ closing).
Proof.
  intros Hf Hc. assert (E := proj1 Hf). subst s.
  unfold Relay.raw_of, match_, Relay.re_quotes.
  rewrite (exec_from_leftmost _ a _
             (MState d (Some (opening ++ body ++ closing)))).
  - reflexivity.
  - apply seq_lit_before_first. exact Hf.
  - rewrite rmatch_seq_lit, strip_prefix_app.
    change (strq "{`quotes`:[") with opening.
    change (str "]}") with closing.
    apply relay_group. exact Hc.
Qed.

Lemma relay_no_quotes_without_marker `{Engine} (s : jsstring) :
  ~ occurs Relay.marker s -> Relay.quotes_of s = VArr [].
Proof.
  intros Hno. unfold Relay.quotes_of, match_, Relay.re_quotes.
  rewrite exec_from_none; [reflexivity|].
  apply seq_lit_absent. exact Hno.
Qed.

Lemma relay_answer_whole (s : jsstring) :
  ~ occurs Relay.marker s -> Relay.answer_of s = trim s.
Proof.
  intros Hno. unfold Relay.answer_of, Relay.re_block. f_equal.
  apply replace_none. apply seq_lit_absent. exact Hno.
Qed.

(** *** The closing pair and the opening *)

Lemma app_split (p x a z : jsstring) :
  p ++ x = a ++ z -> length p <= length a ->
  exists a', a = p ++ a' /\ x = a' ++ z.
Proof.
  revert a. induction p as [|c p IH]; intros a E Hlen.
  - exists a. split; [reflexivity | exact E].
  - destruct a as [|c' a]; [simpl in Hlen; lia|].
    simpl in E. injection E as -> E.
    destruct (IH a E) as (a' & -> & Hx); [simpl in Hlen; lia|].
    exists a'. split; [reflexivity | exact Hx].
Qed.

Lemma app_in_prefix (p x a : jsstring) (c : char) (y : jsstring) :
  p ++ x = a ++ c :: y -> length a < length p -> In c p.
Proof.
  revert a. induction p as [|d p IH]; intros a E Hlen; [simpl in Hlen; lia|].
  destruct a as [|d' a].
  - simpl in E. injection E as -> _. left. reflexivity.
  - simpl in E. injection E as _ E. right.
    apply (IH a E). simpl in Hlen. lia.
Qed.

Lemma opening_has_no_bracket : ~ In 93%N opening.
Proof.
  vm_compute. intros H.
  repeat (destruct H as [H|H]; [discriminate H|]). exact H.
Qed.

(** The first closing pair of the text after the opening is the first
    one of the whole trailer. *)
Lemma close_after_opening (body d : jsstring) :
  first_at closing (body ++ closing ++ d) body d ->
  first_at closing (opening ++ body ++ closing ++ d) (opening ++ body) d.
Proof.
  intros [_ Hmin]. split; [rewrite <- app_assoc; reflexivity|].
  intros a' b' E.
  destruct (Nat.lt_ge_cases (length a') (length opening)) as [Hlt|Hge].
  - exfalso. apply opening_has_no_bracket.
    exact (app_in_prefix opening _ a' 93%N _ E Hlt).
  - destruct (app_split opening _ a' _ E Hge) as (a'' & -> & Hb).
    repeat rewrite length_app. specialize (Hmin a'' b' Hb). lia.
Qed.

(* ================================================================== *)
(** ** The handlers around the parsing *)
(* ================================================================== *)

Lemma callAI_request `{Engine} (net : network) (p : Client.Provider)
    (k sys user : jsstring) :
  Client.callAI net p k sys user =
  ([Client.request_of p k sys user],
   Client.after_fetch p (net (Client.request_of p k sys user))).
Proof. reflexivity. Qed.

(** A query that gets a text back settles with the parsed answer and
    quotes. *)
Lemma onQuery_settles `{Engine} (net : network) (st : Client.State)
    (s : jsstring) :
  Client.blocked st = false ->
  Client.after_fetch (Client.provider st) (net (Client.query_request st))
    = inr (VStr s) ->
  Client.onQuery net st =
  (Client.succeeded (Client.started st) (Client.answer_of s)
     (Client.parsedQuotes s),
   [Client.query_request st]).
Proof.
  intros Hb Hr. unfold Client.onQuery. rewrite Hb, callAI_request.
  fold (Client.query_request st). rewrite Hr. reflexivity.
Qed.

(** A query whose call fails settles in the error state. *)
Lemma onQuery_fails `{Engine} (net : network) (st : Client.State) (e : exn) :
  Client.blocked st = false ->
  Client.after_fetch (Client.provider st) (net (Client.query_request st))
    = inl e ->
  e <> Suspended ->
  Client.onQuery net st =
  (Client.failed (Client.started st) (message_of e), [Client.query_request st]).
Proof.
  intros Hb Hr Hs. unfold Client.onQuery. rewrite Hb, callAI_request.
  fold (Client.query_request st). rewrite Hr.
  destruct e; try reflexivity. congruence.
Qed.

(** A query whose call never settles stays as line 102 left it. *)
Lemma onQuery_suspended `{Engine} (net : network) (st : Client.State) :
  Client.blocked st = false ->
  Client.after_fetch (Client.provider st) (net (Client.query_request st))
    = inl Suspended ->
  Client.onQuery net st = (Client.started st, [Client.query_request st]).
Proof.
  intros Hb Hr. unfold Client.onQuery. rewrite Hb, callAI_request.
  fold (Client.query_request st). rewrite Hr. reflexivity.
Qed.

(** The relay's [try] block is the client's OpenAI branch followed by
    the relay's parsing. *)
Lemma forward_after_fetch `{Engine} (o : fetch_outcome) :
  Relay.forward o =
  (v <- Client.after_fetch Client.openai o ;;
   match v with
   | VStr fullText => ret (Relay.answer_of fullText, Relay.quotes_of fullText)
   | _ => throw (TypeError_not_a_function (str "match"))
   end).
Proof.
  unfold Relay.forward, Client.after_fetch.
  destruct o as [|res|]; [reflexivity| |reflexivity].
  cbv [await_fetch bind ret throw].
  destruct (parse_json (JS.text res)) as [e|data]; [reflexivity|].
  destruct (negb (ok res)).
  - change (Client.fallback_of Client.openai) with (str "OpenAI error").
    destruct (Client.error_message data (str "OpenAI error")); reflexivity.
  - destruct (Client.reply_of Client.openai data); reflexivity.
Qed.

Lemma post_query_settles `{Engine} (net : network) (body : value)
    (corpus : list Relay.doc) (context s : jsstring) :
  Relay.blank (Relay.field body (str "prompt")) = inr false ->
  corpus <> [] ->
  Relay.context_of Relay.cap corpus = inr context ->
  Client.after_fetch Client.openai (net (Relay.query_request body context))
    = inr (VStr s) ->
  Relay.post_query net body corpus =
  (Relay.success (Relay.answer_of s) (Relay.quotes_of s),
   [Relay.query_request body context]).
Proof.
  intros Hb Hc Hx Hr. unfold Relay.post_query. rewrite Hb.
  destruct corpus as [|d ds]; [congruence|]. cbn [length Nat.eqb].
  rewrite Hx, forward_after_fetch, Hr. reflexivity.
Qed.

Lemma post_query_fails `{Engine} (net : network) (body : value)
    (corpus : list Relay.doc) (context : jsstring) (e : exn) :
  Relay.blank (Relay.field body (str "prompt")) = inr false ->
  corpus <> [] ->
  Relay.context_of Relay.cap corpus = inr context ->
  Client.after_fetch Client.openai (net (Relay.query_request body context))
    = inl e ->
  e <> Suspended ->
  Relay.post_query net body corpus =
  (Relay.failure 500 (message_of e), [Relay.query_request body context]).
Proof.
  intros Hb Hc Hx Hr Hs. unfold Relay.post_query. rewrite Hb.
  destruct corpus as [|d ds]; [congruence|]. cbn [length Nat.eqb].
  rewrite Hx, forward_after_fetch, Hr. cbv [bind].
  destruct e; try reflexivity. congruence.
Qed.

(** The relay's context is built when every name of the corpus can be
    converted to a text, and the map of line 44 throws otherwise. *)
Lemma relay_blocks `{Engine} (n : nat) (ds : list Relay.doc) :
  Relay.blocks n ds =
  if forallb (fun d => stringable (Relay.name d)) ds
  then inr (map (fun d => str "--- " ++ shown (Relay.name d) ++ str " ---"
                            ++ [LF] ++ firstn n (Relay.text d)) ds)
  else inl TypeError_to_primitive.
Proof.
  induction ds as [|d ds IH]; [reflexivity|].
  cbn [Relay.blocks forallb map]. unfold Relay.block, Relay.to_text, ToString.
  destruct (stringable (Relay.name d)); [|reflexivity].
  cbv [bind ret] in IH |- *. rewrite IH.
  destruct (forallb (fun d0 => stringable (Relay.name d0)) ds); reflexivity.
Qed.

Lemma relay_context `{Engine} (n : nat) (ds : list Relay.doc) :
  Relay.context_of n ds =
  if forallb (fun d => stringable (Relay.name d)) ds
  then inr (join [LF; LF]
              (map (fun d => str "--- " ++ shown (Relay.name d) ++ str " ---"
                               ++ [LF] ++ firstn n (Relay.text d)) ds))
  else inl TypeError_to_primitive.
Proof.
  unfold Relay.context_of. rewrite relay_blocks.
  destruct (forallb (fun d => stringable (Relay.name d)) ds); reflexivity.
Qed.

(** Nothing but a call that never settles suspends the adapter. *)
Lemma walk_not_suspended (v : value) (path : list step) :
  walk v path <> inl Suspended.
Proof.
  revert v. induction path as [|st path IH]; intros v; [discriminate|].
  destruct st as [name|]; cbn [walk]; cbv [bind].
  - destruct v; cbn [get]; cbv [ret throw]; try discriminate; apply IH.
  - destruct v as [| | | |[|c t]|l|props]; cbn [get0]; cbv [ret throw];
      try discriminate; apply IH.
Qed.

Lemma after_fetch_suspended `{Engine} (p : Client.Provider) (o : fetch_outcome) :
  Client.after_fetch p o = inl Suspended <-> o = Pending.
Proof.
  split; [|intros ->; reflexivity].
  destruct o as [|res|]; [discriminate | | reflexivity].
  unfold Client.after_fetch, parse_json. cbv [await_fetch bind ret throw].
  destruct (JSON_parse (JS.text res)) as [data|]; [|discriminate].
  destruct (negb (ok res)).
  - unfold Client.error_message. cbv [bind ret].
    destruct data; cbn [get]; cbv [ret throw]; try discriminate;
      match goal with
      | |- context [get_opt ?e ?k] =>
          destruct e; cbn [get_opt get]; cbv [ret throw]; try discriminate
      end;
      unfold new_Error;
      match goal with
      | |- context [stringable ?m] => destruct (stringable m); discriminate
      end.
  - unfold Client.reply_of.
    destruct (walk data (Client.reply_path p)) as [e|r] eqn:W; [|discriminate].
    intros E. injection E as ->. exfalso. exact (walk_not_suspended _ _ W).
Qed.

(* ================================================================== *)
(** ** The answer: what is cut from the reply *)
(* ================================================================== *)

(** The client's answer is the reply cut at the first occurrence of the
    marker and trimmed, whatever follows the marker. *)
Lemma client_answer_spec (s : jsstring) :
  (forall a b, first_at Client.marker s a b -> Client.answer_of s = trim a) /\
  (~ occurs Client.marker s -> Client.answer_of s = trim s).
Proof.
  split.
  - intros a b Hf. exact (client_answer_cut s a b Hf).
  - exact (client_answer_whole s).
Qed.

(** C1, at the relay: the answer is meant to be the reply with everything
    from the first occurrence of the marker to the end removed, then
    trimmed.  The client does so (see [client_answer_spec]); line 84 of
    the relay removes the marker and the text up to the first closing
    brace only.  On the reply of the specification's example the tail
    of the trailer stays in the relay's answer, and on a trailer that was
    cut short nothing is removed at all. *)
Theorem relay_answer_keeps_trailer :
  Relay.answer_of Sample.reply = Sample.answer_text ++ [LF] ++ closing /\
  Relay.answer_of Sample.truncated = Sample.truncated /\
  Client.answer_of Sample.reply = Sample.answer_text /\
  Client.answer_of Sample.truncated = str "A".
Proof. vm_compute. repeat split. Qed.

(* ================================================================== *)
(** ** The quotes: what is decoded from the trailer *)
(* ================================================================== *)

(** A trailer that is a valid object, and whose array is decoded by
    [JSON.parse], loses its quotes when a quote's text holds the closing
    pair: line 128 cuts the text there. *)
Lemma closing_pair_inside_quote :
  Ref.parse Sample.bracketed_trailer
    = Some (VObj [(str "quotes", VArr [Sample.bracketed_quote])]) /\
  @Client.parsedQuotes Ref.engine Sample.bracketed = VArr [] /\
  @Client.parsedQuotes Ref.engine Sample.bracketed
    <> VArr [Sample.bracketed_quote].
Proof. vm_compute. repeat split. discriminate. Qed.

(** C2, as the code has it: for a reply [prefix ++ marker ++ trailer]
    in which the marker does not occur before the end of [prefix], and a
    trailer [{"quotes":[ body ]}] whose only closing bracket-brace pair
    is its last two characters and which [JSON.parse] decodes to an
    object whose [quotes] member is the array [l], the client's answer is
    [prefix] trimmed and its quotes are [l], in the array's order; the
    relay reads the same quotes. *)
Theorem trailer_quotes_decoded `{Engine} (prefix body : jsstring)
    (d : value) (l : list value) :
  first_at Client.marker
    (prefix ++ Client.marker ++ opening ++ body ++ closing)
    prefix (opening ++ body ++ closing) ->
  first_at closing (body ++ closing) body [] ->
  JSON_parse (opening ++ body ++ closing) = Some d ->
  get d (str "quotes") = inr (VArr l) ->
  Client.answer_of (prefix ++ Client.marker ++ opening ++ body ++ closing)
    = trim prefix /\
  Client.parsedQuotes (prefix ++ Client.marker ++ opening ++ body ++ closing)
    = VArr l /\
  Relay.quotes_of (prefix ++ Client.marker ++ opening ++ body ++ closing)
    = VArr l.
Proof.
  intros Hm Hc Hd Hq.
  assert (Hc' : first_at closing (body ++ closing ++ []) body []).
  { exact Hc. }
  split; [exact (client_answer_cut _ _ _ Hm)|]. split.
  - rewrite client_quotes_of_raw.
    rewrite (client_raw_closed _ prefix (opening ++ body ++ closing)
               (body ++ closing) (opening ++ body) []).
    + rewrite <- app_assoc. unfold parse_json. rewrite Hd. cbn [bind ret].
      rewrite Hq. reflexivity.
    + exact Hm.
    + apply strip_prefix_app.
    + exact (close_after_opening body [] Hc').
  - rewrite relay_quotes_of_raw.
    rewrite (relay_raw_closed _ prefix body []).
    + unfold parse_json. rewrite Hd. cbn [bind ret]. rewrite Hq. reflexivity.
    + exact Hm.
    + exact Hc'.
Qed.

(** The worked example of the specification, on the reference engine. *)
Lemma trailer_quotes_decoded_example :
  Client.answer_of Sample.reply = trim (Sample.answer_text ++ [LF]) /\
  @Client.parsedQuotes Ref.engine Sample.reply = VArr [Sample.quote1] /\
  @Relay.quotes_of Ref.engine Sample.reply = VArr [Sample.quote1].
Proof.
  apply (@trailer_quotes_decoded Ref.engine (Sample.answer_text ++ [LF])
           Sample.quotes_body Sample.decoded [Sample.quote1]).
  - apply split_at_first. vm_compute. reflexivity.
  - apply split_at_first. vm_compute. reflexivity.
  - vm_compute. reflexivity.
  - vm_compute. reflexivity.
Defined.

(** The worked example from end to end: one document [A], the question,
    strict mode, and a provider that answers with [Sample.reply]. *)
Example worked_example :
  @Client.onQuery Ref.engine (Sample.always (Response true Sample.reply_body))
     (Sample.session Client.openai)
  = (Client.succeeded (Client.started (Sample.session Client.openai))
       Sample.answer_text (VArr [Sample.quote1]),
     [Client.query_request (Sample.session Client.openai)]).
Proof. vm_compute. reflexivity. Qed.

(** A trailer followed by more text is not JSON as a whole, and still
    yields its quotes, in the client and in the relay. *)
Lemma trailing_text_keeps_quotes :
  occurs Client.marker Sample.trailing /\
  Ref.parse Sample.trailing_trailer = None /\
  @Client.parsedQuotes Ref.engine Sample.trailing = VArr [Sample.q1] /\
  @Relay.quotes_of Ref.engine Sample.trailing = VArr [Sample.q1].
Proof.
  split.
  - exists (str "A "), Sample.trailing_trailer. vm_compute. reflexivity.
  - vm_compute. repeat split.
Qed.

(** C3, as the code has it: when the text the parser hands to
    [JSON.parse] is rejected, or the parser finds no text to hand over
    (the marker is not followed by the opening of the object), the
    quotes are empty, the query settles without an error, and the answer
    is produced all the same; the relay, having built its context and
    received the reply, answers with success and no quotes.  That text
    is the trailer cut after its first closing pair (client) or up to it
    (relay), not the whole trailer. *)
Theorem rejected_trailer_gives_no_quotes `{Engine} (net : network)
    (s : jsstring) :
  (forall st : Client.State,
     Client.blocked st = false ->
     Client.after_fetch (Client.provider st) (net (Client.query_request st))
       = inr (VStr s) ->
     (forall raw, Client.raw_of s = Some raw -> JSON_parse raw = None) ->
     Client.quotes (fst (Client.onQuery net st)) = VArr [] /\
     Client.answer (fst (Client.onQuery net st)) = Client.answer_of s /\
     Client.error (fst (Client.onQuery net st)) = [] /\
     Client.loading (fst (Client.onQuery net st)) = false)
  /\
  (forall (body : value) (corpus : list Relay.doc) (context : jsstring),
     Relay.blank (Relay.field body (str "prompt")) = inr false ->
     corpus <> [] ->
     Relay.context_of Relay.cap corpus = inr context ->
     Client.after_fetch Client.openai (net (Relay.query_request body context))
       = inr (VStr s) ->
     (forall raw, Relay.raw_of s = Some raw -> JSON_parse raw = None) ->
     fst (Relay.post_query net body corpus)
       = Relay.success (Relay.answer_of s) (VArr [])).
Proof.
  split.
  - intros st Hb Hr Hraw.
    rewrite (onQuery_settles net st s Hb Hr). cbn [fst].
    assert (Hq : Client.parsedQuotes s = VArr []).
    { rewrite client_quotes_of_raw.
      destruct (Client.raw_of s) as [raw|]; [|reflexivity].
      unfold parse_json. rewrite (Hraw raw eq_refl). reflexivity. }
    rewrite Hq. repeat split.
  - intros body corpus context Hb Hc Hx Hr Hraw.
    rewrite (post_query_settles net body corpus context s Hb Hc Hx Hr).
    cbn [fst].
    assert (Hq : Relay.quotes_of s = VArr []).
    { rewrite relay_quotes_of_raw.
      destruct (Relay.raw_of s) as [raw|]; [|reflexivity].
      unfold parse_json. rewrite (Hraw raw eq_refl). reflexivity. }
    rewrite Hq. reflexivity.
Qed.

(** A reply cut short inside its trailer, on the reference engine. *)
Lemma rejected_trailer_example :
  (Client.quotes
     (fst (@Client.onQuery Ref.engine (Sample.always (Response true Sample.truncated_body))
             (Sample.session Client.openai))) = VArr [] /\
   Client.answer
     (fst (@Client.onQuery Ref.engine (Sample.always (Response true Sample.truncated_body))
             (Sample.session Client.openai))) = Client.answer_of Sample.truncated /\
   Client.error
     (fst (@Client.onQuery Ref.engine (Sample.always (Response true Sample.truncated_body))
             (Sample.session Client.openai))) = [] /\
   Client.loading
     (fst (@Client.onQuery Ref.engine (Sample.always (Response true Sample.truncated_body))
             (Sample.session Client.openai))) = false)
  /\
  fst (@Relay.post_query Ref.engine (Sample.always (Response true Sample.truncated_body))
         Sample.relay_body Sample.relay_corpus)
    = Relay.success (Relay.answer_of Sample.truncated) (VArr []).
Proof.
  destruct (@rejected_trailer_gives_no_quotes Ref.engine
              (Sample.always (Response true Sample.truncated_body))
              Sample.truncated) as [Hclient Hrelay].
  split.
  - apply Hclient.
    + vm_compute. reflexivity.
    + vm_compute. reflexivity.
    + intros raw Hraw. vm_compute in Hraw. injection Hraw as <-.
      vm_compute. reflexivity.
  - apply (Hrelay Sample.relay_body Sample.relay_corpus
             (lines [str "--- A ---"; str "Hello world"])).
    + vm_compute. reflexivity.
    + discriminate.
    + vm_compute. reflexivity.
    + vm_compute. reflexivity.
    + intros raw Hraw. vm_compute in Hraw. discriminate Hraw.
Defined.

(** C4: a reply that does not hold the marker yields no quotes, and its
    answer is the reply trimmed and otherwise unchanged, in the client
    and in the relay. *)
Theorem reply_without_marker `{Engine} (s : jsstring) :
  ~ occurs Client.marker s ->
  Client.parsedQuotes s = VArr [] /\
  Client.answer_of s = trim s /\
  Relay.quotes_of s = VArr [] /\
  Relay.answer_of s = trim s.
Proof.
  intros Hno. repeat split.
  - exact (client_no_quotes_without_marker s Hno).
  - exact (client_answer_whole s Hno).
  - exact (relay_no_quotes_without_marker s Hno).
  - exact (relay_answer_whole s Hno).
Qed.

Lemma reply_without_marker_example :
  @Client.parsedQuotes Ref.engine Sample.plain = VArr [] /\
  Client.answer_of Sample.plain = trim Sample.plain /\
  @Relay.quotes_of Ref.engine Sample.plain = VArr [] /\
  Relay.answer_of Sample.plain = trim Sample.plain.
Proof.
  apply (@reply_without_marker Ref.engine Sample.plain).
  apply split_at_absent. vm_compute. reflexivity.
Defined.

(** C5, at the relay: parsing the answer again is meant to give the same
    answer and no quotes.  The client does so (see
    [client_parse_idempotent]).  The relay's answer can still hold a
    trailer, because line 84 removes one brace-delimited block only: a
    second parse then reads quotes from the answer and changes it. *)
Theorem relay_parse_not_idempotent :
  Relay.answer_of Sample.echoed
    = strq "Format:  QUOTES_JSON:{`quotes`:[{`id`:`q1`}]}" /\
  Relay.answer_of (Relay.answer_of Sample.echoed) = str "Format:  ]}" /\
  @Relay.quotes_of Ref.engine (Relay.answer_of Sample.echoed)
    = VArr [Sample.q1].
Proof. vm_compute. repeat split. Qed.

(* ================================================================== *)
(** ** The context built from the documents *)
(* ================================================================== *)

Lemma join_cons (sep x : jsstring) (l : list jsstring) :
  join sep (x :: l) = x ++ concat (map (fun y => sep ++ y) l).
Proof.
  revert x. induction l as [|y l IH]; intros x.
  - simpl. symmetry. apply app_nil_r.
  - change (join sep (x :: y :: l)) with (x ++ sep ++ join sep (y :: l)).
    rewrite IH. simpl. rewrite <- app_assoc. reflexivity.
Qed.

Lemma firstn_min (n : nat) (l : jsstring) :
  firstn (min n (length l)) l = firstn n l.
Proof.
  destruct (Nat.le_ge_cases n (length l)) as [Hle|Hge].
  - rewrite Nat.min_l by exact Hle. reflexivity.
  - rewrite Nat.min_r by exact Hge.
    rewrite firstn_all. symmetry. apply firstn_all2. exact Hge.
Qed.

(** C6: the context of a non-empty document sequence is, document by
    document in the sequence's order, the line [--- name ---] followed by
    the document's text cut to the cap, with an empty line between two
    documents; nothing is reordered, merged or dropped.  The client runs
    it with the cap 8000 and the relay with 15000.  The relay's names
    are values of the request: the context is this text when each of
    them converts to a text, as every name that is a text does, and
    line 44 throws otherwise. *)
Theorem context_in_document_order `{Engine} (n : nat) :
  (forall (d : Client.Doc) (rest : list Client.Doc),
     Client.context_of n (d :: rest) =
     (str "--- " ++ Client.name d ++ str " ---" ++ [LF]
        ++ firstn (min n (length (Client.text d))) (Client.text d))
     ++ concat
          (map (fun e =>
                  [LF; LF] ++ str "--- " ++ Client.name e ++ str " ---" ++ [LF]
                    ++ firstn (min n (length (Client.text e))) (Client.text e))
             rest))
  /\
  (forall (d : Relay.doc) (rest : list Relay.doc),
     Relay.context_of n (d :: rest) =
     if forallb (fun e => stringable (Relay.name e)) (d :: rest)
     then
       inr ((str "--- " ++ shown (Relay.name d) ++ str " ---" ++ [LF]
               ++ firstn (min n (length (Relay.text d))) (Relay.text d))
            ++ concat
                 (map (fun e =>
                         [LF; LF] ++ str "--- " ++ shown (Relay.name e)
                           ++ str " ---" ++ [LF]
                           ++ firstn (min n (length (Relay.text e))) (Relay.text e))
                    rest))
     else inl TypeError_to_primitive)
  /\
  (forall (d : Relay.doc) (rest : list Relay.doc),
     forallb (fun e => match Relay.name e with VStr _ => true | _ => false end)
       (d :: rest) = true ->
     Relay.context_of n (d :: rest) =
     inr ((str "--- " ++ shown (Relay.name d) ++ str " ---" ++ [LF]
             ++ firstn (min n (length (Relay.text d))) (Relay.text d))
          ++ concat
               (map (fun e =>
                       [LF; LF] ++ str "--- " ++ shown (Relay.name e)
                         ++ str " ---" ++ [LF]
                         ++ firstn (min n (length (Relay.text e))) (Relay.text e))
                  rest))).
Proof.
  assert (Hrelay :
    forall (d : Relay.doc) (rest : list Relay.doc),
      Relay.context_of n (d :: rest) =
      if forallb (fun e => stringable (Relay.name e)) (d :: rest)
      then
        inr ((str "--- " ++ shown (Relay.name d) ++ str " ---" ++ [LF]
                ++ firstn (min n (length (Relay.text d))) (Relay.text d))
             ++ concat
                  (map (fun e =>
                          [LF; LF] ++ str "--- " ++ shown (Relay.name e)
                            ++ str " ---" ++ [LF]
                            ++ firstn (min n (length (Relay.text e))) (Relay.text e))
                     rest))
      else inl TypeError_to_primitive).
  { intros d rest. rewrite relay_context.
    destruct (forallb (fun e => stringable (Relay.name e)) (d :: rest));
      [|reflexivity].
    f_equal. cbn [map]. rewrite join_cons, map_map.
    rewrite firstn_min. f_equal. f_equal.
    apply map_ext. intros e. rewrite firstn_min. reflexivity. }
  split; [|split; [exact Hrelay|]].
  2: { intros d rest Htext. rewrite Hrelay.
       replace (forallb (fun e => stringable (Relay.name e)) (d :: rest))
         with true; [reflexivity|].
       symmetry. apply forallb_forall. intros e He.
       rewrite forallb_forall in Htext. specialize (Htext e He).
       destruct (Relay.name e); try discriminate. reflexivity. }
  intros d rest. unfold Client.context_of.
  change (map (Client.block n) (d :: rest))
    with (Client.block n d :: map (Client.block n) rest).
  rewrite join_cons, map_map. unfold Client.block, slice0.
  rewrite firstn_min. f_equal. f_equal.
  apply map_ext. intros e. rewrite firstn_min. reflexivity.
Qed.

(** Two documents with text names in the relay, cut to five characters. *)
Lemma context_in_document_order_example :
  @Relay.context_of Ref.engine 5
     [Relay.MkDoc (str "1") (VStr (str "A")) (str "Hello world");
      Relay.MkDoc (str "2") (VStr (str "B")) (str "xyz")]
  = inr (lines [str "--- A ---"; str "Hello"; []; str "--- B ---"; str "xyz"]).
Proof.
  rewrite (proj2 (proj2 (@context_in_document_order Ref.engine 5))
             (Relay.MkDoc (str "1") (VStr (str "A")) (str "Hello world"))
             [Relay.MkDoc (str "2") (VStr (str "B")) (str "xyz")]
             eq_refl).
  vm_compute. reflexivity.
Defined.

(** Documents enter the store at its end, so the sequence the context
    is built from is the order of insertion. *)
Lemma addText_appends (c : Client.clock) (st : Client.State) :
  Client.docs (Client.addText c st) = Client.docs st \/
  exists d, Client.text d = Client.pasteText st /\
            Client.docs (Client.addText c st) = Client.docs st ++ [d].
Proof.
  unfold Client.addText. destruct (trim (Client.pasteText st)).
  - left. reflexivity.
  - right. eexists. split; [|reflexivity]. reflexivity.
Qed.

Lemma join_snoc (sep x y : jsstring) (l : list jsstring) :
  join sep ((x :: l) ++ [y]) = join sep (x :: l) ++ sep ++ y.
Proof.
  revert x. induction l as [|z l IH]; intros x; [reflexivity|].
  change (join sep ((x :: z :: l) ++ [y]))
    with (x ++ sep ++ join sep ((z :: l) ++ [y])).
  rewrite IH.
  change (join sep (x :: z :: l)) with (x ++ sep ++ join sep (z :: l)).
  repeat rewrite <- app_assoc. reflexivity.
Qed.

Lemma context_of_snoc (n : nat) (d : Client.Doc) (ds : list Client.Doc)
    (e : Client.Doc) :
  Client.context_of n ((d :: ds) ++ [e]) =
  Client.context_of n (d :: ds) ++ [LF; LF] ++ Client.block n e.
Proof.
  unfold Client.context_of. rewrite map_app.
  exact (join_snoc [LF; LF] (Client.block n d) (Client.block n e)
           (map (Client.block n) ds)).
Qed.

Example context_of_two_documents :
  Client.context_of 5
    [Sample.doc_A;
     Client.MkDoc (str "2") (str "B") 3 (str "1/1/2025") (str "xyz")]
  = lines [str "--- A ---"; str "Hello"; []; str "--- B ---"; str "xyz"].
Proof. vm_compute. reflexivity. Qed.

(* ================================================================== *)
(** ** Queries that are refused *)
(* ================================================================== *)

Lemma is_empty_true (s : jsstring) : s = [] -> Client.is_empty s = true.
Proof. intros ->. reflexivity. Qed.

(** With a blank prompt the relay answers 400 before it looks at the
    corpus, also when the corpus is empty. *)
Lemma relay_blank_prompt_first :
  @Relay.post_query Ref.engine (Sample.always (Response true Sample.hello_openai))
     Sample.blank_body []
    = (Relay.failure 400 (str "Prompt is required"), []) /\
  fst (@Relay.post_query Ref.engine
         (Sample.always (Response true Sample.hello_openai))
         Sample.blank_body [])
    <> Relay.no_documents.
Proof. vm_compute. split; [reflexivity | discriminate]. Qed.

(** C7, as the code has it: with a blank prompt, no document or a blank
    credential the client's query issues no request and leaves the state
    as it is; the relay, asked with a prompt that is not blank and an
    empty corpus, sends the fixed success reply without quotes, and with
    an empty corpus it issues no request whatever the prompt. *)
Theorem refused_queries_issue_no_request `{Engine} (net : network) :
  (forall st : Client.State,
     trim (Client.prompt st) = [] \/ Client.docs st = []
       \/ trim (Client.apiKey st) = [] ->
     Client.onQuery net st = (st, []))
  /\
  (forall (body : value) (p : jsstring),
     Relay.field body (str "prompt") = VStr p -> trim p <> [] ->
     Relay.post_query net body [] =
     (Relay.Sent 200
        (VObj [(str "success", VBool true);
               (str "answer",
                VStr (str "No documents loaded. Please paste your text first."));
               (str "quotes", VArr [])]),
      []))
  /\
  (forall body : value, snd (Relay.post_query net body []) = []).
Proof.
  split; [|split].
  - intros st Hg. unfold Client.onQuery.
    assert (Hb : Client.blocked st = true).
    { unfold Client.blocked. destruct Hg as [Hp|[Hd|Hk]].
      - rewrite (is_empty_true _ Hp). reflexivity.
      - rewrite Hd. cbn [length Nat.eqb]. apply orb_true_iff. left.
        apply orb_true_r.
      - rewrite (is_empty_true _ Hk). apply orb_true_r. }
    rewrite Hb. reflexivity.
  - intros body p Hp Hne. unfold Relay.post_query. rewrite Hp.
    cbn [Relay.blank]. destruct (trim p) as [|c t]; [congruence|].
    reflexivity.
  - intros body. unfold Relay.post_query.
    destruct (Relay.blank (Relay.field body (str "prompt"))) as [e|[|]];
      reflexivity.
Qed.

Lemma refused_queries_example :
  @Client.onQuery Ref.engine (Sample.always (Response true Sample.hello_openai))
     Client.init = (Client.init, []) /\
  @Relay.post_query Ref.engine (Sample.always (Response true Sample.hello_openai))
     Sample.relay_body [] = (Relay.no_documents, []).
Proof.
  destruct (@refused_queries_issue_no_request Ref.engine
              (Sample.always (Response true Sample.hello_openai)))
    as (Hclient & Hrelay & _).
  split.
  - apply Hclient. left. reflexivity.
  - apply (Hrelay Sample.relay_body (str "What is this?")).
    + reflexivity.
    + vm_compute. discriminate.
Defined.

(* ================================================================== *)
(** ** The provider adapters *)
(* ================================================================== *)

(** A success body whose reply path ends in a text is answered with that
    text. *)
Lemma callAI_reply `{Engine} (net : network) (p : Client.Provider)
    (k sys user : jsstring) (res : response) (data : value) (t : jsstring) :
  net (Client.request_of p k sys user) = Fulfilled res ->
  ok res = true ->
  JSON_parse (JS.text res) = Some data ->
  walk data (Client.reply_path p) = inr (VStr t) ->
  snd (Client.callAI net p k sys user) = inr (VStr t).
Proof.
  intros Hn Hok Hd Hw. rewrite callAI_request. cbn [snd].
  rewrite Hn. unfold Client.after_fetch, parse_json.
  cbv [await_fetch bind ret]. rewrite Hd, Hok. cbn [negb].
  unfold Client.reply_of. rewrite Hw. destruct t; reflexivity.
Qed.

(** C8: [callAI] issues one request, shaped for the provider chosen.
    OpenAI: the key as a bearer token, a body of [model], [max_tokens]
    and [messages] with the system and the user message, the reply at
    [choices[0].message.content].  Claude: the key in [x-api-key] next
    to [anthropic-version], a body of [model], [max_tokens], [system]
    and [messages] with the user message, the reply at
    [content[0].text].  Gemini: the key in the query string and in no
    header, a body of [contents] with one part holding the system
    prompt, an empty line and the user message, and [generationConfig]
    with [maxOutputTokens], the reply at
    [candidates[0].content.parts[0].text].  No provider's request carries
    the authentication header of another. *)
Theorem requests_shaped_per_provider `{Engine} (net : network)
    (k sys user : jsstring) :
  (forall p, fst (Client.callAI net p k sys user)
             = [Client.request_of p k sys user])
  /\
  (let r := Client.request_of Client.openai k sys user in
   url r = str "/openai/v1/chat/completions" /\
   method r = str "POST" /\
   header (str "Authorization") r = Some (str "Bearer " ++ k) /\
   header (str "x-api-key") r = None /\
   header (str "anthropic-version") r = None /\
   keys (body r) = [str "model"; str "max_tokens"; str "messages"] /\
   walk (body r) [Key (str "max_tokens")] = inr (VNum (num 4000)) /\
   walk (body r) [Key (str "messages")] =
     inr (VArr [VObj [(str "role", VStr (str "system")); (str "content", VStr sys)];
                VObj [(str "role", VStr (str "user")); (str "content", VStr user)]]))
  /\
  (let r := Client.request_of Client.claude k sys user in
   url r = str "/claude/v1/messages" /\
   method r = str "POST" /\
   header (str "x-api-key") r = Some k /\
   header (str "anthropic-version") r = Some (str "2023-06-01") /\
   header (str "Authorization") r = None /\
   keys (body r) = [str "model"; str "max_tokens"; str "system"; str "messages"] /\
   walk (body r) [Key (str "max_tokens")] = inr (VNum (num 4000)) /\
   walk (body r) [Key (str "system")] = inr (VStr sys) /\
   walk (body r) [Key (str "messages")] =
     inr (VArr [VObj [(str "role", VStr (str "user")); (str "content", VStr user)]]))
  /\
  (let r := Client.request_of Client.gemini k sys user in
   url r = str "/gemini/v1beta/models/gemini-1.5-pro:generateContent?key=" ++ k /\
   method r = str "POST" /\
   header (str "Authorization") r = None /\
   header (str "x-api-key") r = None /\
   header (str "anthropic-version") r = None /\
   keys (body r) = [str "contents"; str "generationConfig"] /\
   walk (body r) [Key (str "contents")] =
     inr (VArr [VObj [(str "parts",
                       VArr [VObj [(str "text", VStr (sys ++ [LF; LF] ++ user))]])]]) /\
   walk (body r) [Key (str "generationConfig")] =
     inr (VObj [(str "maxOutputTokens", VNum (num 4000))]))
  /\
  (forall (res : response) (data : value) (t : jsstring),
     net (Client.request_of Client.openai k sys user) = Fulfilled res ->
     ok res = true -> JSON_parse (JS.text res) = Some data ->
     walk data [Key (str "choices"); First; Key (str "message"); Key (str "content")]
       = inr (VStr t) ->
     snd (Client.callAI net Client.openai k sys user) = inr (VStr t))
  /\
  (forall (res : response) (data : value) (t : jsstring),
     net (Client.request_of Client.claude k sys user) = Fulfilled res ->
     ok res = true -> JSON_parse (JS.text res) = Some data ->
     walk data [Key (str "content"); First; Key (str "text")] = inr (VStr t) ->
     snd (Client.callAI net Client.claude k sys user) = inr (VStr t))
  /\
  (forall (res : response) (data : value) (t : jsstring),
     net (Client.request_of Client.gemini k sys user) = Fulfilled res ->
     ok res = true -> JSON_parse (JS.text res) = Some data ->
     walk data [Key (str "candidates"); First; Key (str "content");
                Key (str "parts"); First; Key (str "text")] = inr (VStr t) ->
     snd (Client.callAI net Client.gemini k sys user) = inr (VStr t)).
Proof.
  split; [intros p; reflexivity|].
  split; [cbv zeta; repeat split|].
  split; [cbv zeta; repeat split|].
  split; [cbv zeta; repeat split|].
  split; [|split]; intros res data t Hn Hok Hd Hw.
  - exact (callAI_reply net Client.openai k sys user res data t Hn Hok Hd Hw).
  - exact (callAI_reply net Client.claude k sys user res data t Hn Hok Hd Hw).
  - exact (callAI_reply net Client.gemini k sys user res data t Hn Hok Hd Hw).
Qed.

Lemma requests_shaped_example :
  snd (@Client.callAI Ref.engine (Sample.always (Response true Sample.hello_openai))
         Client.openai (str "sk-test") (str "system") (str "user"))
    = inr (VStr (str "Hello")) /\
  snd (@Client.callAI Ref.engine (Sample.always (Response true Sample.hello_claude))
         Client.claude (str "sk-test") (str "system") (str "user"))
    = inr (VStr (str "Hello")) /\
  snd (@Client.callAI Ref.engine (Sample.always (Response true Sample.hello_gemini))
         Client.gemini (str "sk-test") (str "system") (str "user"))
    = inr (VStr (str "Hello")).
Proof.
  split; [|split].
  - destruct (@requests_shaped_per_provider Ref.engine
                (Sample.always (Response true Sample.hello_openai))
                (str "sk-test") (str "system") (str "user"))
      as (_ & _ & _ & _ & Ho & _ & _).
    apply (Ho (Response true Sample.hello_openai)
              (VObj [(str "choices",
                      VArr [VObj [(str "message",
                                   VObj [(str "role", VStr (str "assistant"));
                                         (str "content", VStr (str "Hello"))])]])]));
      vm_compute; reflexivity.
  - destruct (@requests_shaped_per_provider Ref.engine
                (Sample.always (Response true Sample.hello_claude))
                (str "sk-test") (str "system") (str "user"))
      as (_ & _ & _ & _ & _ & Hc & _).
    apply (Hc (Response true Sample.hello_claude)
              (VObj [(str "content",
                      VArr [VObj [(str "type", VStr (str "text"));
                                  (str "text", VStr (str "Hello"))]])]));
      vm_compute; reflexivity.
  - destruct (@requests_shaped_per_provider Ref.engine
                (Sample.always (Response true Sample.hello_gemini))
                (str "sk-test") (str "system") (str "user"))
      as (_ & _ & _ & _ & _ & _ & Hg).
    apply (Hg (Response true Sample.hello_gemini)
              (VObj [(str "candidates",
                      VArr [VObj [(str "content",
                                   VObj [(str "parts",
                                          VArr [VObj [(str "text",
                                                       VStr (str "Hello"))]])])]])]));
      vm_compute; reflexivity.
Defined.

(** C9, at a body that is not JSON: a response whose status is not a
    success is meant to fail with the provider's own message, or with
    the provider's fallback text when there is none.  [callAI] decodes
    the body (line 32) before it looks at [res.ok] (line 33), so on a
    gateway's error page the decoder's SyntaxError is what is thrown:
    neither a message of the provider nor the fallback text. *)
Theorem non_json_error_body :
  snd (@Client.callAI Ref.engine (Sample.always (Response false Sample.error_page))
         Client.openai (str "sk-test") (str "system") (str "user"))
    = inl SyntaxError_JSON /\
  @message_of Ref.engine SyntaxError_JSON <> str "OpenAI error".
Proof. vm_compute. split; [reflexivity | discriminate]. Qed.

Lemma after_fetch_not_ok `{Engine} (p : Client.Provider) (res : response) :
  ok res = false ->
  Client.after_fetch p (Fulfilled res) =
  (data <- parse_json (JS.text res) ;;
   m <- Client.error_message data (Client.fallback_of p) ;;
   throw (new_Error m)).
Proof.
  intros Hok. unfold Client.after_fetch. cbv [await_fetch bind ret].
  rewrite Hok. reflexivity.
Qed.

Lemma after_fetch_not_ok_fails `{Engine} (p : Client.Provider) (res : response) :
  ok res = false -> exists e, Client.after_fetch p (Fulfilled res) = inl e.
Proof.
  intros Hok. rewrite (after_fetch_not_ok p res Hok).
  cbv [bind throw].
  destruct (parse_json (JS.text res)) as [e|data]; [exists e; reflexivity|].
  destruct (Client.error_message data (Client.fallback_of p)) as [e|m];
    eexists; reflexivity.
Qed.

(** X24: a response whose status is not a success never yields a reply.
    When its body is not JSON the decoder's SyntaxError is thrown, and
    when it is [null] the TypeError for reading [error] of [null].  When
    [error.message] can be read from the body, the error thrown carries
    that message if it is truthy (a text that is not empty), and the
    provider's fallback text (OpenAI error, Claude error, Gemini error)
    if it is missing or falsy; a truthy message that cannot be converted
    to a text makes the construction of the Error throw a TypeError
    instead.  The relay, having built its context, turns the error of
    such a call into a reply of status 500 carrying its message. *)
Theorem non_success_raises `{Engine} (p : Client.Provider) (res : response) :
  ok res = false ->
  (forall (net : network) (k sys user : jsstring),
     net (Client.request_of p k sys user) = Fulfilled res ->
     (exists e, snd (Client.callAI net p k sys user) = inl e) /\
     (JSON_parse (JS.text res) = None ->
      snd (Client.callAI net p k sys user) = inl SyntaxError_JSON) /\
     (JSON_parse (JS.text res) = Some VNull ->
      snd (Client.callAI net p k sys user)
        = inl (TypeError_nullish (str "error"))))
  /\
  (forall (net : network) (k sys user : jsstring) (data err m : value),
     net (Client.request_of p k sys user) = Fulfilled res ->
     JSON_parse (JS.text res) = Some data ->
     get data (str "error") = inr err ->
     get_opt err (str "message") = inr m ->
     (truthy m = true -> stringable m = true ->
      snd (Client.callAI net p k sys user) = inl (Error m)) /\
     (truthy m = true -> stringable m = false ->
      snd (Client.callAI net p k sys user) = inl TypeError_to_primitive) /\
     (truthy m = false ->
      snd (Client.callAI net p k sys user)
        = inl (Error (VStr (match p with
                            | Client.openai => str "OpenAI error"
                            | Client.claude => str "Claude error"
                            | Client.gemini => str "Gemini error"
                            end)))))
  /\
  (forall (m : jsstring), message_of (Error (VStr m)) = m)
  /\
  (forall (net : network) (body : value) (corpus : list Relay.doc)
          (context : jsstring),
     Relay.blank (Relay.field body (str "prompt")) = inr false ->
     corpus <> [] ->
     Relay.context_of Relay.cap corpus = inr context ->
     net (Relay.query_request body context) = Fulfilled res ->
     exists e,
       Client.after_fetch Client.openai (Fulfilled res) = inl e /\
       Relay.post_query net body corpus =
       (Relay.failure 500 (message_of e), [Relay.query_request body context])).
Proof.
  intros Hok. split; [|split; [|split]].
  - intros net k sys user Hn. rewrite callAI_request. cbn [snd].
    rewrite Hn. split; [exact (after_fetch_not_ok_fails p res Hok)|].
    rewrite (after_fetch_not_ok p res Hok). unfold parse_json.
    split; intros Hd; rewrite Hd; reflexivity.
  - intros net k sys user data err m Hn Hd He Hm.
    rewrite callAI_request. cbn [snd]. rewrite Hn.
    rewrite (after_fetch_not_ok p res Hok).
    unfold parse_json, Client.error_message. rewrite Hd.
    cbv [bind ret throw]. rewrite He, Hm. unfold or_else, new_Error.
    split; [|split].
    + intros Ht Hs. rewrite Ht, Hs. reflexivity.
    + intros Ht Hs. rewrite Ht, Hs. reflexivity.
    + intros Ht. rewrite Ht. destruct p; reflexivity.
  - intros m. reflexivity.
  - intros net body corpus context Hb Hc Hx Hn.
    destruct (after_fetch_not_ok_fails Client.openai res Hok) as [e He].
    exists e. split; [exact He|].
    apply post_query_fails; [exact Hb | exact Hc | exact Hx | | ].
    + rewrite Hn. exact He.
    + intros ->. apply after_fetch_suspended in He. discriminate.
Qed.

Lemma non_success_example :
  snd (@Client.callAI Ref.engine (Sample.always (Response false Sample.error_body))
         Client.claude (str "sk-test") (str "system") (str "user"))
    = inl (Error (VStr (str "Incorrect API key provided"))) /\
  @Relay.post_query Ref.engine (Sample.always (Response false Sample.error_body))
     Sample.relay_body Sample.relay_corpus
    = (Relay.failure 500 (str "Incorrect API key provided"),
       [@Relay.query_request Ref.engine Sample.relay_body
          (lines [str "--- A ---"; str "Hello world"])]).
Proof.
  destruct (@non_success_raises Ref.engine Client.claude
              (Response false Sample.error_body) eq_refl)
    as (_ & Hmsg & _ & _).
  destruct (@non_success_raises Ref.engine Client.openai
              (Response false Sample.error_body) eq_refl)
    as (_ & _ & _ & Hrelay).
  split.
  - apply (Hmsg (Sample.always (Response false Sample.error_body))
             (str "sk-test") (str "system") (str "user")
             Sample.error_data
             (VObj [(str "message", VStr (str "Incorrect API key provided"));
                    (str "type", VStr (str "invalid_request_error"))])
             (VStr (str "Incorrect API key provided")));
      vm_compute; reflexivity.
  - destruct (Hrelay (Sample.always (Response false Sample.error_body))
                Sample.relay_body Sample.relay_corpus
                (lines [str "--- A ---"; str "Hello world"]))
      as (e & He & Hq).
    + vm_compute. reflexivity.
    + discriminate.
    + vm_compute. reflexivity.
    + reflexivity.
    + rewrite Hq. vm_compute in He. injection He as <-. reflexivity.
Defined.

(* ================================================================== *)
(** ** Clearing the corpus *)
(* ================================================================== *)

(** C10: [clearAll] empties the documents, the answer, the quotes and the
    preferred quote, and leaves the prompt, the credential, the
    provider, the strict-mode flag, the error message and the rest of
    the state as they were. *)
Theorem clearAll_frame (st : Client.State) :
  Client.docs (Client.clearAll st) = [] /\
  Client.answer (Client.clearAll st) = [] /\
  Client.quotes (Client.clearAll st) = VArr [] /\
  Client.preferredQuote (Client.clearAll st) = [] /\
  Client.prompt (Client.clearAll st) = Client.prompt st /\
  Client.apiKey (Client.clearAll st) = Client.apiKey st /\
  Client.provider (Client.clearAll st) = Client.provider st /\
  Client.strictMode (Client.clearAll st) = Client.strictMode st /\
  Client.error (Client.clearAll st) = Client.error st /\
  Client.loading (Client.clearAll st) = Client.loading st /\
  Client.pasteText (Client.clearAll st) = Client.pasteText st /\
  Client.pasteName (Client.clearAll st) = Client.pasteName st.
Proof. repeat split. Qed.

(* ================================================================== *)
(** ** The document store *)
(* ================================================================== *)

Lemma jseqb_eq (a b : jsstring) : jseqb a b = true <-> a = b.
Proof.
  revert b. induction a as [|x a IH]; intros [|y b]; simpl;
    try (split; [discriminate | discriminate]); [tauto|].
  rewrite andb_true_iff, char_eqb_eq, IH.
  split; [intros [-> ->]; reflexivity | intros E; injection E; auto].
Qed.

(** The document [addText] stores. *)
Lemma addText_stores (c : Client.clock) (st : Client.State) :
  trim (Client.pasteText st) <> [] ->
  Client.addText c st =
  Client.MkState (Client.provider st) (Client.apiKey st)
    (Client.docs st ++
       [Client.MkDoc (Client.now c)
          (match trim (Client.pasteName st) with
           | [] => str "Document"
           | n => n
           end)
          (length (Client.pasteText st))
          (Client.localeString c)
          (Client.pasteText st)])
    [] [] (Client.prompt st) (Client.answer st) (Client.quotes st)
    (Client.strictMode st) (Client.loading st) (Client.error st)
    (Client.preferredQuote st).
Proof.
  intros Hne. unfold Client.addText.
  destruct (trim (Client.pasteText st)); [congruence | reflexivity].
Qed.

(** X1: Adding a document to a store that holds some extends the context of
    the next query at its end by one block, the pasted text cut to the
    cap under the trimmed name (or under [Document] when the name is
    blank), and leaves the blocks before it as they were. *)
Theorem addText_extends_context (c : Client.clock) (st : Client.State) (n : nat) :
  trim (Client.pasteText st) <> [] ->
  Client.docs st <> [] ->
  Client.context_of n (Client.docs (Client.addText c st)) =
  Client.context_of n (Client.docs st)
    ++ [LF; LF] ++ str "--- "
    ++ (match trim (Client.pasteName st) with
        | [] => str "Document"
        | name => name
        end)
    ++ str " ---" ++ [LF] ++ firstn n (Client.pasteText st).
Proof.
  intros Hne Hdocs. rewrite (addText_stores c st Hne). cbn [Client.docs].
  destruct (Client.docs st) as [|d ds]; [congruence|].
  rewrite context_of_snoc. reflexivity.
Qed.

Lemma addText_extends_context_example :
  Client.context_of 5
    (Client.docs
       (Client.addText (Client.Clock (str "2") (str "1/1/2025"))
          (Client.MkState Client.openai [] [Sample.doc_A] (str "xyz") (str " B ")
             [] [] (VArr []) true false [] [])))
  = Client.context_of 5 [Sample.doc_A]
      ++ [LF; LF] ++ str "--- " ++ str "B" ++ str " ---" ++ [LF] ++ str "xyz".
Proof.
  apply (addText_extends_context (Client.Clock (str "2") (str "1/1/2025"))
           (Client.MkState Client.openai [] [Sample.doc_A] (str "xyz") (str " B ")
              [] [] (VArr []) true false [] []) 5).
  - vm_compute. discriminate.
  - discriminate.
Defined.

(** X2: Removing a document removes every document that carries its id, and
    only those; a document that stays keeps its place between the ones
    that were before it and the ones that were after it. *)
Theorem removeDoc_by_id (doc : Client.Doc) (st : Client.State) :
  (forall x, In x (Client.docs (Client.removeDoc doc st)) <->
             In x (Client.docs st) /\ Client.id x <> Client.id doc)
  /\
  (forall before x after,
     Client.docs st = before ++ x :: after ->
     Client.id x <> Client.id doc ->
     exists before' after',
       Client.docs (Client.removeDoc doc st) = before' ++ x :: after' /\
       (forall y, In y before' -> In y before) /\
       (forall y, In y after' -> In y after)).
Proof.
  split.
  - intros x. unfold Client.removeDoc. cbn [Client.docs].
    rewrite filter_In, negb_true_iff.
    split; intros [Hin Hid]; split; try exact Hin.
    + intros E. apply jseqb_eq in E. congruence.
    + destruct (jseqb (Client.id x) (Client.id doc)) eqn:E; [|reflexivity].
      apply jseqb_eq in E. congruence.
  - intros before x after Hd Hid. unfold Client.removeDoc. cbn [Client.docs].
    rewrite Hd, filter_app. cbn [filter].
    destruct (jseqb (Client.id x) (Client.id doc)) eqn:E.
    + apply jseqb_eq in E. congruence.
    + cbn [negb]. eexists. eexists. split; [reflexivity|].
      split; intros y Hy; apply filter_In in Hy; exact (proj1 Hy).
Qed.

Lemma removeDoc_by_id_example :
  (In Scenario.doc_C
      (Client.docs (Client.removeDoc Scenario.doc_B Scenario.three_documents))
   <-> In Scenario.doc_C (Client.docs Scenario.three_documents) /\
       Client.id Scenario.doc_C <> Client.id Scenario.doc_B) /\
  (In Scenario.doc_B
      (Client.docs (Client.removeDoc Scenario.doc_B Scenario.three_documents))
   <-> In Scenario.doc_B (Client.docs Scenario.three_documents) /\
       Client.id Scenario.doc_B <> Client.id Scenario.doc_B) /\
  exists before' after',
    Client.docs (Client.removeDoc Scenario.doc_B Scenario.three_documents)
    = before' ++ Scenario.doc_C :: after' /\
    (forall y, In y before' -> In y [Sample.doc_A; Scenario.doc_B]) /\
    (forall y, In y after' -> In y []).
Proof.
  destruct (removeDoc_by_id Scenario.doc_B Scenario.three_documents)
    as [Hin Horder].
  split; [exact (Hin Scenario.doc_C)|]. split; [exact (Hin Scenario.doc_B)|].
  apply (Horder [Sample.doc_A; Scenario.doc_B] Scenario.doc_C []).
  - reflexivity.
  - vm_compute. discriminate.
Defined.

Lemma filter_none (f : Client.Doc -> bool) (l : list Client.Doc) :
  (forall x, In x l -> f x = true) -> filter f l = l.
Proof.
  induction l as [|x l IH]; intros Hall; [reflexivity|].
  simpl. rewrite (Hall x (or_introl eq_refl)).
  f_equal. apply IH. intros y Hy. apply Hall. right. exact Hy.
Qed.

(** X3: Adding a document and removing it again gives the store back, when
    no document of the store carries the id the clock hands out.  (A
    document of the store that carries this id is removed too.) *)
Theorem add_then_remove (c : Client.clock) (st : Client.State) (d : Client.Doc) :
  trim (Client.pasteText st) <> [] ->
  Client.id d = Client.now c ->
  (forall x, In x (Client.docs st) -> Client.id x <> Client.now c) ->
  Client.docs (Client.removeDoc d (Client.addText c st)) = Client.docs st.
Proof.
  intros Hne Hd Hfresh. rewrite (addText_stores c st Hne).
  unfold Client.removeDoc. cbn [Client.docs]. rewrite filter_app.
  cbn [filter Client.id]. rewrite Hd.
  assert (E : jseqb (Client.now c) (Client.now c) = true)
    by (apply jseqb_eq; reflexivity).
  rewrite E. cbn [negb]. rewrite app_nil_r.
  apply filter_none. intros x Hx. apply negb_true_iff.
  destruct (jseqb (Client.id x) (Client.now c)) eqn:E'; [|reflexivity].
  apply jseqb_eq in E'. exfalso. exact (Hfresh x Hx E').
Qed.

Lemma add_then_remove_example :
  Client.docs
    (Client.removeDoc (Client.MkDoc (str "2") [] 0 [] [])
       (Client.addText (Client.Clock (str "2") (str "1/1/2025"))
          (Client.MkState Client.openai [] [Sample.doc_A] (str "xyz") (str " B ")
             [] [] (VArr []) true false [] [])))
  = [Sample.doc_A].
Proof.
  apply (add_then_remove (Client.Clock (str "2") (str "1/1/2025"))
           (Client.MkState Client.openai [] [Sample.doc_A] (str "xyz") (str " B ")
              [] [] (VArr []) true false [] [])
           (Client.MkDoc (str "2") [] 0 [] [])).
  - vm_compute. discriminate.
  - reflexivity.
  - intros x [<-|[]]. vm_compute. discriminate.
Defined.

(* ================================================================== *)
(** ** The query handler as a whole *)
(* ================================================================== *)

Lemma onQuery_cases `{Engine} (net : network) (st : Client.State) :
  (Client.blocked st = true /\ Client.onQuery net st = (st, [])) \/
  (Client.blocked st = false /\
   ((exists s,
       Client.after_fetch (Client.provider st) (net (Client.query_request st))
         = inr (VStr s) /\
       Client.onQuery net st =
       (Client.succeeded (Client.started st) (Client.answer_of s)
          (Client.parsedQuotes s), [Client.query_request st]))
    \/
    ((forall s,
        Client.after_fetch (Client.provider st) (net (Client.query_request st))
          <> inr (VStr s)) /\
     net (Client.query_request st) <> Pending /\
     exists msg,
       Client.onQuery net st =
       (Client.failed (Client.started st) msg, [Client.query_request st]))
    \/
    (net (Client.query_request st) = Pending /\
     Client.onQuery net st = (Client.started st, [Client.query_request st])))).
Proof.
  destruct (Client.blocked st) eqn:Hb.
  - left. split; [reflexivity|]. unfold Client.onQuery. rewrite Hb. reflexivity.
  - right. split; [reflexivity|].
    destruct (Client.after_fetch (Client.provider st)
                (net (Client.query_request st))) as [e|v] eqn:Hr.
    + assert (Hs : e = Suspended \/ e <> Suspended)
        by (destruct e; (left; reflexivity) || (right; discriminate)).
      destruct Hs as [->|Hs].
      * right. right. split; [exact (proj1 (after_fetch_suspended _ _) Hr)|].
        exact (onQuery_suspended net st Hb Hr).
      * right. left. split; [intros s; discriminate|]. split.
        -- intros Hp. apply Hs.
           rewrite (proj2 (after_fetch_suspended (Client.provider st) _) Hp) in Hr.
           congruence.
        -- exists (message_of e). exact (onQuery_fails net st e Hb Hr Hs).
    + assert (Hp : net (Client.query_request st) <> Pending).
      { intros Hp.
        rewrite (proj2 (after_fetch_suspended (Client.provider st) _) Hp) in Hr.
        discriminate. }
      destruct v as [| |b|n|s|l|props];
        try (right; left; split; [intros s0; discriminate|];
             split; [exact Hp|];
             eexists; unfold Client.onQuery;
             rewrite Hb, callAI_request; fold (Client.query_request st);
             rewrite Hr; reflexivity).
      left. exists s. split; [reflexivity|].
      exact (onQuery_settles net st s Hb Hr).
Qed.

(** X4: A query never touches the provider, the credential, the documents,
    the paste fields, the prompt, the strict-mode flag or the preferred
    quote, whatever the network does: a preferred quote chosen for an
    earlier result stays selected. *)
Theorem onQuery_frame `{Engine} (net : network) (st : Client.State) :
  Client.provider (fst (Client.onQuery net st)) = Client.provider st /\
  Client.apiKey (fst (Client.onQuery net st)) = Client.apiKey st /\
  Client.docs (fst (Client.onQuery net st)) = Client.docs st /\
  Client.pasteText (fst (Client.onQuery net st)) = Client.pasteText st /\
  Client.pasteName (fst (Client.onQuery net st)) = Client.pasteName st /\
  Client.prompt (fst (Client.onQuery net st)) = Client.prompt st /\
  Client.strictMode (fst (Client.onQuery net st)) = Client.strictMode st /\
  Client.preferredQuote (fst (Client.onQuery net st)) = Client.preferredQuote st.
Proof.
  destruct (onQuery_cases net st)
    as [[_ E]|[_ [(s & _ & E)|[(_ & _ & msg & E)|[_ E]]]]];
    rewrite E; repeat split.
Qed.

Lemma onQuery_issues_one `{Engine} (net : network) (st : Client.State) :
  Client.blocked st = false ->
  snd (Client.onQuery net st) = [Client.query_request st].
Proof.
  intros Hb.
  destruct (onQuery_cases net st)
    as [[Hb' _]|[_ [(s & _ & E)|[(_ & _ & msg & E)|[_ E]]]]];
    [congruence | rewrite E; reflexivity ..].
Qed.

(** X5: A query that passes the guard issues exactly one request, the one
    built from the state, whether the call succeeds or fails: nothing is
    retried.  A query that does not pass issues none. *)
Theorem onQuery_requests `{Engine} (net : network) (st : Client.State) :
  snd (Client.onQuery net st) =
  if Client.blocked st then [] else [Client.query_request st].
Proof.
  destruct (onQuery_cases net st)
    as [[Hb E]|[Hb [(s & _ & E)|[(_ & _ & msg & E)|[_ E]]]]];
    rewrite E, Hb; reflexivity.
Qed.

(** X6: Once the call of a query that passes the guard has settled
    (the fetch rejected, or fulfilled and its body read), the state has
    [loading] off, and holds either the parsed answer and quotes of the
    reply and no error, or an empty answer and no quotes.  The source
    sets no timeout: while the call never settles, the state stays as
    line 102 left it, with [loading] on and the answer, the quotes and
    the error emptied. *)
Theorem onQuery_outcome `{Engine} (net : network) (st : Client.State) :
  Client.blocked st = false ->
  (net (Client.query_request st) <> Pending ->
   Client.loading (fst (Client.onQuery net st)) = false /\
   ((exists s,
       Client.after_fetch (Client.provider st) (net (Client.query_request st))
         = inr (VStr s) /\
       Client.answer (fst (Client.onQuery net st)) = Client.answer_of s /\
       Client.quotes (fst (Client.onQuery net st)) = Client.parsedQuotes s /\
       Client.error (fst (Client.onQuery net st)) = [])
    \/
    (Client.answer (fst (Client.onQuery net st)) = [] /\
     Client.quotes (fst (Client.onQuery net st)) = VArr [] /\
     forall s,
       Client.after_fetch (Client.provider st) (net (Client.query_request st))
         <> inr (VStr s))))
  /\
  (net (Client.query_request st) = Pending ->
   Client.loading (fst (Client.onQuery net st)) = true /\
   Client.answer (fst (Client.onQuery net st)) = [] /\
   Client.quotes (fst (Client.onQuery net st)) = VArr [] /\
   Client.error (fst (Client.onQuery net st)) = []).
Proof.
  intros Hb.
  destruct (onQuery_cases net st)
    as [[Hb' _]|[_ [(s & Hr & E)|[(Hno & Hp & msg & E)|[Hp E]]]]];
    [congruence | | | ].
  - split.
    + intros _. rewrite E. split; [reflexivity|].
      left. exists s. repeat split. exact Hr.
    + intros Hp. apply (after_fetch_suspended (Client.provider st)) in Hp.
      congruence.
  - split.
    + intros _. rewrite E. split; [reflexivity|].
      right. repeat split. exact Hno.
    + intros Hp'. congruence.
  - split.
    + intros Hp'. congruence.
    + intros _. rewrite E. repeat split.
Qed.

Lemma onQuery_outcome_example :
  (Client.loading
     (fst (@Client.onQuery Ref.engine
             (Sample.always (Response false Sample.error_page))
             (Sample.session Client.gemini))) = false /\
   Client.answer
     (fst (@Client.onQuery Ref.engine
             (Sample.always (Response false Sample.error_page))
             (Sample.session Client.gemini))) = [] /\
   Client.quotes
     (fst (@Client.onQuery Ref.engine
             (Sample.always (Response false Sample.error_page))
             (Sample.session Client.gemini))) = VArr []) /\
  Client.loading
    (fst (@Client.onQuery Ref.engine (fun _ => Pending)
            (Sample.session Client.gemini))) = true.
Proof.
  destruct (@onQuery_outcome Ref.engine
              (Sample.always (Response false Sample.error_page))
              (Sample.session Client.gemini) eq_refl) as [Hsettled _].
  destruct (@onQuery_outcome Ref.engine (fun _ => Pending)
              (Sample.session Client.gemini) eq_refl) as [_ Hpending].
  split.
  - destruct (Hsettled ltac:(discriminate)) as [Hl [(s & Hr & _)|(Ha & Hq & _)]].
    + vm_compute in Hr. discriminate Hr.
    + repeat split; assumption.
  - exact (proj1 (Hpending eq_refl)).
Defined.


(** X8: After [clearAll] a query issues no request and changes nothing,
    whatever the prompt and the credential: the store is empty. *)
Theorem query_after_clearAll `{Engine} (net : network) (st : Client.State) :
  Client.onQuery net (Client.clearAll st) = (Client.clearAll st, []).
Proof.
  unfold Client.onQuery.
  assert (Hb : Client.blocked (Client.clearAll st) = true).
  { unfold Client.blocked. cbn [Client.clearAll Client.docs length Nat.eqb].
    rewrite orb_true_r. reflexivity. }
  rewrite Hb. reflexivity.
Qed.

(* ================================================================== *)
(** ** The controls and the handlers behind them *)
(* ================================================================== *)

(** X9: The Run button is disabled exactly when a query is loading or the
    handler's own guard would refuse; the handler itself does not look
    at [loading], so only the button keeps a second query from starting
    while one is in flight. *)
Theorem run_button_guard `{Engine} (net : network) (st : Client.State) :
  View.run_disabled st = Client.loading st || Client.blocked st /\
  (View.run_disabled st = false ->
   snd (Client.onQuery net st) = [Client.query_request st]) /\
  (Client.loading st = true -> Client.blocked st = false ->
   View.run_disabled st = true /\
   snd (Client.onQuery net st) = [Client.query_request st]).
Proof.
  assert (E : View.run_disabled st = Client.loading st || Client.blocked st).
  { unfold View.run_disabled, Client.blocked.
    repeat rewrite orb_assoc. reflexivity. }
  split; [exact E|]. split.
  - intros Hd. rewrite E in Hd. apply orb_false_iff in Hd.
    exact (onQuery_issues_one net st (proj2 Hd)).
  - intros Hl Hb. split.
    + rewrite E, Hl. reflexivity.
    + exact (onQuery_issues_one net st Hb).
Qed.

Lemma run_button_guard_example :
  (View.run_disabled (Sample.session Client.claude) = false ->
   snd (@Client.onQuery Ref.engine
          (Sample.always (Response true Sample.hello_claude))
          (Sample.session Client.claude))
   = [Client.query_request (Sample.session Client.claude)]) /\
  snd (@Client.onQuery Ref.engine
         (Sample.always (Response true Sample.hello_claude))
         (Client.started (Sample.session Client.claude)))
  = [Client.query_request (Client.started (Sample.session Client.claude))].
Proof.
  split.
  - exact (proj1 (proj2 (@run_button_guard Ref.engine
             (Sample.always (Response true Sample.hello_claude))
             (Sample.session Client.claude)))).
  - refine (proj2 (proj2 (proj2 (@run_button_guard Ref.engine
             (Sample.always (Response true Sample.hello_claude))
             (Client.started (Sample.session Client.claude)))) _ _)).
    + reflexivity.
    + vm_compute. reflexivity.
Defined.

(** X10: The Add button is disabled exactly when [addText] would do nothing;
    when it is enabled, a click stores one more document and empties the
    two paste fields. *)
Theorem add_button_guard (c : Client.clock) (st : Client.State) :
  (View.add_disabled st = true -> Client.addText c st = st) /\
  (View.add_disabled st = false ->
   length (Client.docs (Client.addText c st)) = S (length (Client.docs st)) /\
   Client.pasteText (Client.addText c st) = [] /\
   Client.pasteName (Client.addText c st) = [] /\
   View.add_disabled (Client.addText c st) = true).
Proof.
  unfold View.add_disabled. split; intros Hd.
  - unfold Client.addText.
    destruct (trim (Client.pasteText st)); [reflexivity | discriminate].
  - assert (Hne : trim (Client.pasteText st) <> []).
    { intros E. rewrite E in Hd. discriminate. }
    rewrite (addText_stores c st Hne).
    cbn [Client.docs Client.pasteText Client.pasteName].
    rewrite length_app. cbn [length]. repeat split. lia.
Qed.

Lemma add_button_guard_example :
  Client.addText (Client.Clock (str "2") (str "1/1/2025"))
    (Sample.session Client.openai) = Sample.session Client.openai /\
  length
    (Client.docs
       (Client.addText (Client.Clock (str "2") (str "1/1/2025"))
          (Client.MkState Client.openai [] [Sample.doc_A] (str "xyz") (str " B ")
             [] [] (VArr []) true false [] []))) = 2.
Proof.
  split.
  - apply (proj1 (add_button_guard (Client.Clock (str "2") (str "1/1/2025"))
                    (Sample.session Client.openai))).
    reflexivity.
  - apply (proj2 (add_button_guard (Client.Clock (str "2") (str "1/1/2025"))
                    (Client.MkState Client.openai [] [Sample.doc_A] (str "xyz")
                       (str " B ") [] [] (VArr []) true false [] []))).
    vm_compute. reflexivity.
Defined.

(* ================================================================== *)
(** ** Replies without a text *)
(* ================================================================== *)

Lemma empty_reply_parsed `{Engine} :
  Client.answer_of [] = [] /\ Client.parsedQuotes [] = VArr [].
Proof. split; reflexivity. Qed.

(** X11: A success body whose reply path ends in a falsy value (a content
    that is missing, [null] or empty) is read as the empty text: the
    query then shows an empty answer, no quotes and no error. *)
Theorem empty_content_is_empty_answer `{Engine} (net : network)
    (st : Client.State) (res : response) (data v : value) :
  Client.blocked st = false ->
  net (Client.query_request st) = Fulfilled res ->
  ok res = true ->
  JSON_parse (JS.text res) = Some data ->
  walk data (Client.reply_path (Client.provider st)) = inr v ->
  truthy v = false ->
  Client.onQuery net st =
  (Client.succeeded (Client.started st) [] (VArr []), [Client.query_request st]).
Proof.
  intros Hb Hn Hok Hd Hw Hv.
  assert (Hr : Client.after_fetch (Client.provider st)
                 (net (Client.query_request st)) = inr (VStr [])).
  { rewrite Hn. unfold Client.after_fetch, parse_json.
    cbv [await_fetch bind ret]. rewrite Hd, Hok. cbn [negb].
    unfold Client.reply_of. rewrite Hw. unfold or_else. rewrite Hv.
    reflexivity. }
  rewrite (onQuery_settles net st [] Hb Hr).
  destruct empty_reply_parsed as [-> ->]. reflexivity.
Qed.

Lemma empty_content_example :
  @Client.onQuery Ref.engine (Sample.always (Response true Scenario.null_content))
     (Sample.session Client.openai)
  = (Client.succeeded (Client.started (Sample.session Client.openai)) [] (VArr []),
     [Client.query_request (Sample.session Client.openai)]).
Proof.
  apply (@empty_content_is_empty_answer Ref.engine
           (Sample.always (Response true Scenario.null_content))
           (Sample.session Client.openai)
           (Response true Scenario.null_content)
           Scenario.null_content_data VNull);
    vm_compute; reflexivity.
Defined.

(** X12: A success body that is an object without the list its reply path
    starts from ([choices], [content], [candidates]) makes [callAI]
    throw the engine's TypeError for reading [0] of [undefined], not an
    error with the provider's fallback text; the query ends in the error
    state with that message. *)
Theorem missing_envelope_throws `{Engine} (net : network) (st : Client.State)
    (res : response) (props : list (jsstring * value)) :
  Client.blocked st = false ->
  net (Client.query_request st) = Fulfilled res ->
  ok res = true ->
  JSON_parse (JS.text res) = Some (VObj props) ->
  own props (match Client.provider st with
             | Client.openai => str "choices"
             | Client.claude => str "content"
             | Client.gemini => str "candidates"
             end) = VUndefined ->
  Client.after_fetch (Client.provider st) (net (Client.query_request st))
    = inl (TypeError_nullish (str "0")) /\
  Client.onQuery net st =
  (Client.failed (Client.started st)
     (engine_message (TypeError_nullish (str "0"))),
   [Client.query_request st]).
Proof.
  intros Hb Hn Hok Hd Hown.
  assert (Hr : Client.after_fetch (Client.provider st)
                 (net (Client.query_request st))
               = inl (TypeError_nullish (str "0"))).
  { rewrite Hn. unfold Client.after_fetch, parse_json.
    cbv [await_fetch bind ret]. rewrite Hd, Hok. cbn [negb].
    unfold Client.reply_of.
    destruct (Client.provider st); cbn [Client.reply_path walk get];
      cbv [bind ret]; rewrite Hown; reflexivity. }
  split; [exact Hr|].
  apply (onQuery_fails net st _ Hb Hr). discriminate.
Qed.

Lemma missing_envelope_example :
  @Client.after_fetch Ref.engine (Client.provider (Sample.session Client.claude))
    (Sample.always (Response true Scenario.no_envelope)
       (Client.query_request (Sample.session Client.claude)))
    = inl (TypeError_nullish (str "0")) /\
  @Client.onQuery Ref.engine (Sample.always (Response true Scenario.no_envelope))
     (Sample.session Client.claude)
  = (Client.failed (Client.started (Sample.session Client.claude))
       (@engine_message Ref.engine (TypeError_nullish (str "0"))),
     [Client.query_request (Sample.session Client.claude)]).
Proof.
  apply (@missing_envelope_throws Ref.engine
           (Sample.always (Response true Scenario.no_envelope))
           (Sample.session Client.claude)
           (Response true Scenario.no_envelope)
           Scenario.no_envelope_props);
    vm_compute; reflexivity.
Defined.

(* ================================================================== *)
(** ** Where the parsers look for the trailer *)
(* ================================================================== *)

Lemma strip_prefix_app_l (p q s : jsstring) :
  strip_prefix (p ++ q) s =
  match strip_prefix p s with
  | Some t => strip_prefix q t
  | None => None
  end.
Proof.
  revert s. induction p as [|c p IH]; intros s.
  - simpl. destruct s; reflexivity.
  - destruct s as [|d s]; simpl; [reflexivity|].
    destruct (char_eqb c d); [apply IH | reflexivity].
Qed.

Lemma lazy_dots_absent (s : jsstring) (cp : option jsstring) (k : cont) :
  (forall a1 a2, s = a1 ++ a2 -> k (MState a2 cp) = None) ->
  lazy_dots s cp k = None.
Proof.
  induction s as [|c s IH]; intros Hk.
  - rewrite lazy_dots_unfold, (Hk [] []); reflexivity.
  - rewrite lazy_dots_unfold, (Hk [] (c :: s)) by reflexivity.
    apply IH. intros a1 a2 E. apply (Hk (c :: a1) a2). simpl. congruence.
Qed.

(** What follows a later occurrence of a text is an end of what follows
    its first occurrence. *)
Lemma after_later_occurrence (l s a b a1 b1 : jsstring) :
  first_at l s a b -> s = a1 ++ l ++ b1 -> exists z, b = z ++ b1.
Proof.
  intros [E Hmin] E1. specialize (Hmin a1 b1 E1).
  rewrite E in E1.
  destruct (app_split a (l ++ b) a1 (l ++ b1) E1 Hmin) as (a' & -> & E2).
  rewrite app_assoc in E2.
  destruct (app_split l b (a' ++ l) b1 E2) as (z & _ & Hz).
  - rewrite length_app. lia.
  - exists z. exact Hz.
Qed.

(** A pattern made of a literal, a lazy run and a closing literal
    matches nowhere when the closing literal does not occur after the
    first occurrence of the opening one. *)
Lemma lazy_block_absent (l c s a b : jsstring) (r : regex)
    (K : jsstring -> cont) :
  (forall t, rmatch r (MState t None) Some =
             match strip_prefix l t with
             | Some b' => lazy_dots b' None (K b')
             | None => None
             end) ->
  (forall b' t, strip_prefix c t = None -> K b' (MState t None) = None) ->
  first_at l s a b -> ~ occurs c b ->
  forall a1 a2, s = a1 ++ a2 -> rmatch r (MState a2 None) Some = None.
Proof.
  intros Hr HK Hf Hno a1 a2 E. rewrite Hr.
  destruct (strip_prefix l a2) as [b'|] eqn:P; [|reflexivity].
  apply strip_prefix_Some in P. subst a2.
  destruct (after_later_occurrence l s a b a1 b' Hf E) as (z & Hz).
  apply lazy_dots_absent. intros x y Hxy. apply HK.
  destruct (strip_prefix c y) as [t|] eqn:Q; [|reflexivity].
  exfalso. apply Hno. apply strip_prefix_Some in Q.
  exists (z ++ x), t. rewrite Hz, Hxy, Q.
  repeat rewrite <- app_assoc. reflexivity.
Qed.

Lemma client_trailer_at (t : jsstring) :
  rmatch Client.re_trailer (MState t None) Some =
  match strip_prefix (Client.marker ++ opening) t with
  | Some b => Some (MState [] (Some (opening ++ b)))
  | None => None
  end.
Proof.
  unfold Client.re_trailer. rewrite rmatch_seq_lit, strip_prefix_app_l.
  destruct (strip_prefix Client.marker t) as [J|]; [|reflexivity].
  change (strq "{`quotes`:[") with opening. rewrite trailer_group.
  destruct (strip_prefix opening J) as [b|] eqn:P; [|reflexivity].
  apply strip_prefix_Some in P. rewrite P. reflexivity.
Qed.

Lemma close_absent_after_opening (b : jsstring) :
  ~ occurs closing b -> ~ occurs closing (opening ++ b).
Proof.
  intros Hno (x & y & E). apply Hno.
  destruct (Nat.lt_ge_cases (length x) (length opening)) as [Hlt|Hge].
  - exfalso. apply opening_has_no_bracket.
    exact (app_in_prefix opening b x 93%N _ E Hlt).
  - destruct (app_split opening b x (closing ++ y) E Hge) as (x' & _ & Hb).
    exists x', y. exact Hb.
Qed.

(** X13: The client reads its quotes from the first place where the marker is
    directly followed by the opening of the object; a marker followed by
    anything else is passed over.  The text it hands to [JSON.parse]
    runs from that opening up to and including the first closing pair
    after it, or to the end of the reply when there is none.  A reply
    without such a place yields no quotes. *)
Theorem client_candidate `{Engine} (s : jsstring) :
  (forall a b, first_at (Client.marker ++ opening) s a b ->
     (forall c d, first_at closing b c d ->
                  Client.raw_of s = Some (opening ++ c ++ closing)) /\
     (~ occurs closing b -> Client.raw_of s = Some (opening ++ b)))
  /\
  (~ occurs (Client.marker ++ opening) s ->
   Client.raw_of s = None /\ Client.parsedQuotes s = VArr []).
Proof.
  split.
  - intros a b Hf.
    assert (Hm : match_ Client.re_trailer s =
                 Some (MatchResult (length a) (Client.marker ++ opening ++ b) []
                         (Some (opening ++ b)))).
    { assert (E := proj1 Hf). rewrite <- app_assoc in E. subst s.
      unfold match_.
      rewrite (exec_from_leftmost _ a (Client.marker ++ opening ++ b)
                 (MState [] (Some (opening ++ b)))).
      - cbn [rest cap1 Nat.add]. rewrite Nat.sub_0_r, firstn_all. reflexivity.
      - intros a1 a2 Ea Hne. rewrite client_trailer_at.
        destruct (strip_prefix (Client.marker ++ opening)
                    (a2 ++ Client.marker ++ opening ++ b)) as [t|] eqn:P;
          [|reflexivity].
        exfalso. apply strip_prefix_Some in P.
        refine (first_at_no_earlier (Client.marker ++ opening) a b a1 a2 _ Ea Hne t _).
        + rewrite <- app_assoc. exact Hf.
        + rewrite <- app_assoc. exact P.
      - rewrite client_trailer_at, app_assoc, strip_prefix_app. reflexivity. }
    unfold Client.raw_of. rewrite Hm. cbn [group1].
    change (str "]}") with closing. split.
    + intros c d Hc.
      assert (Hc' : first_at closing (c ++ closing ++ d) c d).
      { rewrite <- (proj1 Hc). exact Hc. }
      rewrite (proj1 Hc).
      rewrite (cut_after_first_close _ (opening ++ c) d
                 (close_after_opening c d Hc')).
      rewrite <- app_assoc. reflexivity.
    + intros Hno.
      rewrite (cut_without_close _ (close_absent_after_opening b Hno)).
      reflexivity.
  - intros Hno.
    assert (Hm : match_ Client.re_trailer s = None).
    { unfold match_. apply exec_from_none. intros a1 a2 E.
      rewrite client_trailer_at.
      destruct (strip_prefix (Client.marker ++ opening) a2) as [t|] eqn:P;
        [|reflexivity].
      exfalso. apply Hno. apply strip_prefix_Some in P.
      exists a1, t. rewrite E, P. reflexivity. }
    unfold Client.raw_of, Client.parsedQuotes. rewrite Hm. split; reflexivity.
Qed.

Lemma client_candidate_example :
  @Client.raw_of Scenario.bare_then_trailer
    = Some (opening ++ strq "{`id`:`q1`}" ++ closing) /\
  @Client.parsedQuotes Ref.engine Scenario.spaced = VArr [].
Proof.
  destruct (@client_candidate Ref.engine Scenario.bare_then_trailer) as [Hfound _].
  destruct (@client_candidate Ref.engine Scenario.spaced) as [_ Hnone].
  split.
  - apply (proj1 (Hfound (str "See QUOTES_JSON: below. ")
                    (strq "{`id`:`q1`}]} end")
                    ltac:(apply split_at_first; vm_compute; reflexivity))
             (strq "{`id`:`q1`}") (str " end")).
    apply split_at_first. vm_compute. reflexivity.
  - apply Hnone. apply split_at_absent. vm_compute. reflexivity.
Defined.

(** X14: The client's answer never holds the marker and neither opens nor
    ends with white space. *)
Theorem client_answer_clean (s : jsstring) :
  ~ occurs Client.marker (Client.answer_of s) /\
  no_lead (Client.answer_of s) /\
  no_lead (rev (Client.answer_of s)).
Proof.
  split; [apply client_answer_marker_free|].
  unfold Client.answer_of. split.
  - unfold trim. apply trimEnd_no_lead, trimStart_no_lead.
  - unfold trim, trimEnd. rewrite rev_involutive. apply trimStart_no_lead.
Qed.

Lemma relay_quotes_at (t : jsstring) :
  rmatch Relay.re_quotes (MState t None) Some =
  match strip_prefix (Relay.marker ++ opening) t with
  | Some b => lazy_dots b None (relay_close b)
  | None => None
  end.
Proof.
  unfold Relay.re_quotes. rewrite rmatch_seq_lit, strip_prefix_app_l.
  destruct (strip_prefix Relay.marker t) as [J|]; [|reflexivity].
  change (strq "{`quotes`:[") with opening. change (str "]}") with closing.
  rewrite rmatch_group, rmatch_seq_lit. cbn [rest].
  destruct (strip_prefix opening J) as [b|] eqn:P; [|reflexivity].
  apply strip_prefix_Some in P. subst J.
  rewrite rmatch_seq, rmatch_star_dot_lazy. reflexivity.
Qed.

Lemma relay_close_needs_pair (b t : jsstring) :
  strip_prefix closing t = None -> relay_close b (MState t None) = None.
Proof.
  intros P. unfold relay_close. rewrite rmatch_lit. cbn [rest].
  rewrite P. reflexivity.
Qed.

Lemma relay_block_at (t : jsstring) :
  rmatch Relay.re_block (MState t None) Some =
  match strip_prefix (Relay.marker ++ str "{") t with
  | Some b => lazy_dots b None (fun y => rmatch (lit (str "}")) y Some)
  | None => None
  end.
Proof.
  unfold Relay.re_block. rewrite rmatch_seq_lit, strip_prefix_app_l.
  destruct (strip_prefix Relay.marker t) as [J|]; [|reflexivity].
  rewrite rmatch_seq_lit.
  destruct (strip_prefix (str "{") J) as [b|]; [|reflexivity].
  rewrite rmatch_seq, rmatch_star_dot_lazy. reflexivity.
Qed.

Lemma lit_absent_everywhere (l s : jsstring) (r : regex)
    (body : jsstring -> option mstate) :
  (forall t, rmatch r (MState t None) Some =
             match strip_prefix l t with
             | Some b => body b
             | None => None
             end) ->
  ~ occurs l s ->
  forall a1 a2, s = a1 ++ a2 -> rmatch r (MState a2 None) Some = None.
Proof.
  intros Hr Hno a1 a2 E. rewrite Hr.
  destruct (strip_prefix l a2) as [t|] eqn:P; [|reflexivity].
  exfalso. apply Hno. apply strip_prefix_Some in P.
  exists a1, t. rewrite E, P. reflexivity.
Qed.

Lemma lit_absent_before_first (l a b : jsstring) (r : regex)
    (body : jsstring -> option mstate) :
  (forall t, rmatch r (MState t None) Some =
             match strip_prefix l t with
             | Some b => body b
             | None => None
             end) ->
  first_at l (a ++ l ++ b) a b ->
  forall a1 a2, a = a1 ++ a2 -> a2 <> [] ->
                rmatch r (MState (a2 ++ l ++ b) None) Some = None.
Proof.
  intros Hr Hf a1 a2 E Hne. rewrite Hr.
  destruct (strip_prefix l (a2 ++ l ++ b)) as [t|] eqn:P; [|reflexivity].
  exfalso. apply strip_prefix_Some in P.
  exact (first_at_no_earlier l a b a1 a2 Hf E Hne t P).
Qed.

(** X15: The relay's answer is the reply without one block: from the first
    place where the marker is directly followed by an opening brace, up
    to and including the first closing brace after it.  What follows
    that brace stays in the answer.  Without such a place, or without a
    closing brace after it, the answer is the whole reply, trimmed. *)
Theorem relay_answer_block (s : jsstring) :
  (forall a b, first_at (Relay.marker ++ str "{") s a b ->
     (forall c d, first_at (str "}") b c d ->
                  Relay.answer_of s = trim (a ++ d)) /\
     (~ occurs (str "}") b -> Relay.answer_of s = trim s))
  /\
  (~ occurs (Relay.marker ++ str "{") s -> Relay.answer_of s = trim s).
Proof.
  split.
  - intros a b Hf. split.
    + intros c d Hc. assert (E := proj1 Hf). subst s.
      unfold Relay.answer_of. f_equal.
      rewrite (replace_leftmost _ [] a ((Relay.marker ++ str "{") ++ b)
                 (MState d None)).
      * reflexivity.
      * exact (lit_absent_before_first _ a b _ _ relay_block_at Hf).
      * rewrite relay_block_at, strip_prefix_app. rewrite (proj1 Hc).
        apply lazy_dots_first.
        -- rewrite <- (proj1 Hc). exact Hc.
        -- intros t P. rewrite rmatch_lit. cbn [rest]. rewrite P. reflexivity.
        -- rewrite rmatch_lit. cbn [rest]. rewrite strip_prefix_app. reflexivity.
    + intros Hno. unfold Relay.answer_of. f_equal. apply replace_none.
      apply (lazy_block_absent (Relay.marker ++ str "{") (str "}") s a b _
               (fun _ y => rmatch (lit (str "}")) y Some)).
      * exact relay_block_at.
      * intros b' t P. rewrite rmatch_lit. cbn [rest]. rewrite P. reflexivity.
      * exact Hf.
      * exact Hno.
  - intros Hno. unfold Relay.answer_of. f_equal. apply replace_none.
    exact (lit_absent_everywhere _ s _ _ relay_block_at Hno).
Qed.

Lemma relay_answer_block_example :
  Relay.answer_of Sample.trailing
    = trim (str "A " ++ strq "]} as cited above") /\
  Relay.answer_of Sample.truncated = trim Sample.truncated /\
  Relay.answer_of Scenario.spaced = trim Scenario.spaced.
Proof.
  destruct (relay_answer_block Sample.trailing) as [H1 _].
  destruct (relay_answer_block Sample.truncated) as [H2 _].
  destruct (relay_answer_block Scenario.spaced) as [_ H3].
  split; [|split].
  - apply (proj1 (H1 (str "A ") (strq "`quotes`:[{`id`:`q1`}]} as cited above")
                    ltac:(apply split_at_first; vm_compute; reflexivity))
             (strq "`quotes`:[{`id`:`q1`") (strq "]} as cited above")).
    apply split_at_first. vm_compute. reflexivity.
  - apply (proj2 (H2 (str "A ") (strq "`quotes`:[{`id`:`q1`")
                    ltac:(apply split_at_first; vm_compute; reflexivity))).
    apply split_at_absent. vm_compute. reflexivity.
  - apply H3. apply split_at_absent. vm_compute. reflexivity.
Defined.

(** X16: The relay reads its quotes from the first place where the marker is
    directly followed by the opening of the object, and hands to
    [JSON.parse] the text from that opening up to and including the
    first closing pair after it.  When no closing pair follows, or there
    is no such place, the relay finds nothing and the quotes are
    empty. *)
Theorem relay_candidate `{Engine} (s : jsstring) :
  (forall a b, first_at (Relay.marker ++ opening) s a b ->
     (forall c d, first_at closing b c d ->
                  Relay.raw_of s = Some (opening ++ c ++ closing)) /\
     (~ occurs closing b ->
      Relay.raw_of s = None /\ Relay.quotes_of s = VArr []))
  /\
  (~ occurs (Relay.marker ++ opening) s ->
   Relay.raw_of s = None /\ Relay.quotes_of s = VArr []).
Proof.
  assert (Hnone : match_ Relay.re_quotes s = None ->
                  Relay.raw_of s = None /\ Relay.quotes_of s = VArr []).
  { intros Hm. unfold Relay.raw_of, Relay.quotes_of. rewrite Hm.
    split; reflexivity. }
  split.
  - intros a b Hf. split.
    + intros c d Hc. assert (E := proj1 Hf). subst s.
      unfold Relay.raw_of, match_.
      rewrite (exec_from_leftmost _ a ((Relay.marker ++ opening) ++ b)
                 (MState d (Some (opening ++ c ++ closing)))).
      * reflexivity.
      * exact (lit_absent_before_first _ a b _ _ relay_quotes_at Hf).
      * rewrite relay_quotes_at, strip_prefix_app. rewrite (proj1 Hc).
        apply lazy_dots_first.
        -- rewrite <- (proj1 Hc). exact Hc.
        -- intros t P. apply relay_close_needs_pair. exact P.
        -- unfold relay_close. rewrite rmatch_lit. cbn [rest].
           rewrite strip_prefix_app. cbn [rest]. f_equal. f_equal. f_equal.
           replace (opening ++ c ++ closing ++ d)
             with ((opening ++ c ++ closing) ++ d)
             by (repeat rewrite <- app_assoc; reflexivity).
           apply firstn_prefix.
    + intros Hno. apply Hnone. unfold match_. apply exec_from_none.
      exact (lazy_block_absent (Relay.marker ++ opening) closing s a b _
               relay_close relay_quotes_at relay_close_needs_pair Hf Hno).
  - intros Hno. apply Hnone. unfold match_. apply exec_from_none.
    exact (lit_absent_everywhere _ s _ _ relay_quotes_at Hno).
Qed.

Lemma relay_candidate_example :
  Relay.raw_of Scenario.bare_then_trailer
    = Some (opening ++ strq "{`id`:`q1`}" ++ closing) /\
  (Relay.raw_of Sample.truncated = None /\
   @Relay.quotes_of Ref.engine Sample.truncated = VArr []) /\
  (Relay.raw_of Scenario.spaced = None /\
   @Relay.quotes_of Ref.engine Scenario.spaced = VArr []).
Proof.
  destruct (@relay_candidate Ref.engine Scenario.bare_then_trailer) as [H1 _].
  destruct (@relay_candidate Ref.engine Sample.truncated) as [H2 _].
  destruct (@relay_candidate Ref.engine Scenario.spaced) as [_ H3].
  split; [|split].
  - apply (proj1 (H1 (str "See QUOTES_JSON: below. ")
                    (strq "{`id`:`q1`}]} end")
                    ltac:(apply split_at_first; vm_compute; reflexivity))
             (strq "{`id`:`q1`}") (str " end")).
    apply split_at_first. vm_compute. reflexivity.
  - apply (proj2 (H2 (str "A ") (strq "{`id`:`q1`")
                    ltac:(apply split_at_first; vm_compute; reflexivity))).
    apply split_at_absent. vm_compute. reflexivity.
  - apply H3. apply split_at_absent. vm_compute. reflexivity.
Defined.

(* ================================================================== *)
(** ** The relay's handlers *)
(* ================================================================== *)

Lemma post_query_unconvertible `{Engine} (net : network) (body : value)
    (corpus : list Relay.doc) (p : jsstring) :
  Relay.field body (str "prompt") = VStr p -> trim p <> [] ->
  forallb (fun d => stringable (Relay.name d)) corpus = false ->
  Relay.post_query net body corpus
    = (Relay.Escaped TypeError_to_primitive, []).
Proof.
  intros E Hne Hall. unfold Relay.post_query. rewrite E. cbn [Relay.blank].
  destruct (trim p); [congruence|]. cbv [ret].
  destruct corpus as [|d ds]; [discriminate Hall|]. cbn [length Nat.eqb].
  rewrite relay_context, Hall. reflexivity.
Qed.

(** X17: The relay answers 400 without a request when the prompt is
    missing, [null] or blank, whatever the corpus holds.  With a prompt
    that is a text, a corpus whose names all convert to a text and a
    call that settles, it always sends a reply, of status 200, 400 or
    500.  A prompt that is neither a text nor missing (a number, a
    list, an object) makes the handler throw before it replies; so does,
    for a prompt that is not blank, a corpus holding a name that cannot
    be converted (line 44 stands outside the [try]); and while the call
    never settles the handler stays at its [await] and sends nothing. *)
Theorem relay_prompt_validation `{Engine} (net : network) (body : value)
    (corpus : list Relay.doc) :
  (Relay.field body (str "prompt") = VUndefined \/
   Relay.field body (str "prompt") = VNull \/
   (exists p, Relay.field body (str "prompt") = VStr p /\ trim p = []) ->
   Relay.post_query net body corpus
     = (Relay.failure 400 (str "Prompt is required"), []))
  /\
  (forall p, Relay.field body (str "prompt") = VStr p ->
     forallb (fun d => stringable (Relay.name d)) corpus = true ->
     (forall context, net (Relay.query_request body context) <> Pending) ->
     exists status json,
       fst (Relay.post_query net body corpus) = Relay.Sent status json /\
       (status = 200 \/ status = 400 \/ status = 500))
  /\
  (forall v, Relay.field body (str "prompt") = v ->
     match v with
     | VBool _ | VNum _ | VArr _ | VObj _ => True
     | _ => False
     end ->
     Relay.post_query net body corpus
       = (Relay.Escaped (TypeError_not_a_function (str "trim")), []))
  /\
  (forall p, Relay.field body (str "prompt") = VStr p -> trim p <> [] ->
     forallb (fun d => stringable (Relay.name d)) corpus = false ->
     Relay.post_query net body corpus
       = (Relay.Escaped TypeError_to_primitive, []))
  /\
  (forall p context,
     Relay.field body (str "prompt") = VStr p -> trim p <> [] ->
     corpus <> [] ->
     Relay.context_of Relay.cap corpus = inr context ->
     net (Relay.query_request body context) = Pending ->
     Relay.post_query net body corpus
       = (Relay.Unanswered, [Relay.query_request body context])).
Proof.
  split; [|split; [|split; [|split]]].
  - intros [E|[E|(p & E & Hp)]]; unfold Relay.post_query; rewrite E;
      cbn [Relay.blank]; try rewrite Hp; reflexivity.
  - intros p E Hall Hnet. unfold Relay.post_query. rewrite E. cbn [Relay.blank].
    destruct (trim p) as [|c t].
    + eexists. eexists. split; [reflexivity|]. right. left. reflexivity.
    + cbv [ret]. destruct (length corpus =? 0).
      * eexists. eexists. split; [reflexivity|]. left. reflexivity.
      * rewrite relay_context, Hall.
        match goal with
        | |- context [Relay.forward (net ?r)] =>
            rewrite forward_after_fetch;
            destruct (Client.after_fetch Client.openai (net r)) as [e|v] eqn:Hr
        end.
        -- cbv [bind].
           assert (Hs : e <> Suspended).
           { intros ->. apply after_fetch_suspended in Hr.
             exact (Hnet _ Hr). }
           destruct e; try congruence;
             (eexists; eexists; split; [reflexivity|]; auto).
        -- cbv [bind ret throw].
           destruct v; eexists; eexists; (split; [reflexivity|]); auto.
  - intros v E Hv. unfold Relay.post_query. rewrite E.
    destruct v; try contradiction; reflexivity.
  - intros p E Hne Hall.
    exact (post_query_unconvertible net body corpus p E Hne Hall).
  - intros p context E Hne Hc Hx Hp. unfold Relay.post_query. rewrite E.
    cbn [Relay.blank]. destruct (trim p); [congruence|]. cbv [ret].
    destruct corpus as [|d ds]; [congruence|]. cbn [length Nat.eqb].
    rewrite Hx, Hp. reflexivity.
Qed.

Lemma relay_prompt_validation_example :
  @Relay.post_query Ref.engine (Sample.always (Response true Sample.hello_openai))
     (VObj []) Sample.relay_corpus
    = (Relay.failure 400 (str "Prompt is required"), []) /\
  (exists status json,
     fst (@Relay.post_query Ref.engine
            (Sample.always (Response true Sample.hello_openai))
            Sample.relay_body Sample.relay_corpus) = Relay.Sent status json /\
     (status = 200 \/ status = 400 \/ status = 500)) /\
  @Relay.post_query Ref.engine (Sample.always (Response true Sample.hello_openai))
     Scenario.numeric_prompt Sample.relay_corpus
    = (Relay.Escaped (TypeError_not_a_function (str "trim")), []) /\
  @Relay.post_query Ref.engine (Sample.always (Response true Sample.hello_openai))
     Sample.relay_body Scenario.unnamed_corpus
    = (Relay.Escaped TypeError_to_primitive, []) /\
  @Relay.post_query Ref.engine (fun _ => Pending)
     Sample.relay_body Sample.relay_corpus
    = (Relay.Unanswered,
       [@Relay.query_request Ref.engine Sample.relay_body
          (lines [str "--- A ---"; str "Hello world"])]).
Proof.
  split; [|split; [|split; [|split]]].
  - apply (proj1 (@relay_prompt_validation Ref.engine
                    (Sample.always (Response true Sample.hello_openai))
                    (VObj []) Sample.relay_corpus)).
    left. reflexivity.
  - apply (proj1 (proj2 (@relay_prompt_validation Ref.engine
                    (Sample.always (Response true Sample.hello_openai))
                    Sample.relay_body Sample.relay_corpus))
             (str "What is this?")).
    + reflexivity.
    + reflexivity.
    + intros context. discriminate.
  - apply (proj1 (proj2 (proj2 (@relay_prompt_validation Ref.engine
                    (Sample.always (Response true Sample.hello_openai))
                    Scenario.numeric_prompt Sample.relay_corpus)))
             (VNum (num 5))).
    + reflexivity.
    + exact I.
  - apply (proj1 (proj2 (proj2 (proj2 (@relay_prompt_validation Ref.engine
                    (Sample.always (Response true Sample.hello_openai))
                    Sample.relay_body Scenario.unnamed_corpus))))
             (str "What is this?")).
    + reflexivity.
    + vm_compute. discriminate.
    + reflexivity.
  - apply (proj2 (proj2 (proj2 (proj2 (@relay_prompt_validation Ref.engine
                    (fun _ => Pending)
                    Sample.relay_body Sample.relay_corpus))))
             (str "What is this?")).
    + reflexivity.
    + vm_compute. discriminate.
    + discriminate.
    + vm_compute. reflexivity.
    + reflexivity.
Defined.

(** X18: A query the relay accepts, once line 44 has built the context,
    is forwarded as one request to OpenAI's chat endpoint, with the
    server's key as bearer token (the constant is empty in the file, so
    the header is the bare scheme), 2000 as [max_tokens], and two
    messages: the strict instruction unless the request carries a falsy
    [strictQuotesOnly] (leaving the flag out means strict), and the
    documents followed by the prompt. *)
Theorem relay_request_shape `{Engine} (net : network) (body : value)
    (corpus : list Relay.doc) (p context : jsstring) :
  Relay.field body (str "prompt") = VStr p ->
  trim p <> [] ->
  corpus <> [] ->
  Relay.context_of (15 * 1000) corpus = inr context ->
  exists r,
    snd (Relay.post_query net body corpus) = [r] /\
    url r = str "https://api.openai.com/v1/chat/completions" /\
    method r = str "POST" /\
    header (str "Authorization") r = Some (str "Bearer ") /\
    keys (JS.body r) = [str "model"; str "max_tokens"; str "messages"] /\
    walk (JS.body r) [Key (str "max_tokens")] = inr (VNum (num 2000)) /\
    walk (JS.body r) [Key (str "messages")] =
      inr (VArr
             [VObj [(str "role", VStr (str "system"));
                    (str "content",
                     VStr (if match Relay.field body (str "strictQuotesOnly") with
                              | VUndefined => true
                              | flag => truthy flag
                              end
                           then Relay.strict_prompt
                           else Relay.relaxed_prompt))];
              VObj [(str "role", VStr (str "user"));
                    (str "content",
                     VStr (str "Documents:" ++ [LF; LF] ++ context
                             ++ [LF; LF] ++ str "Question: " ++ p))]]).
Proof.
  intros Hp Hne Hc Hx. exists (Relay.query_request body context).
  split.
  - unfold Relay.post_query. rewrite Hp. cbn [Relay.blank].
    destruct (trim p) as [|c t]; [congruence|]. cbv [ret].
    destruct corpus as [|d ds]; [congruence|]. cbn [length Nat.eqb].
    change Relay.cap with (15 * 1000). rewrite Hx.
    destruct (Relay.forward (net (Relay.query_request body context)))
      as [e|[a q]]; [destruct e|]; reflexivity.
  - unfold Relay.query_request, Relay.openai_request, Relay.system_prompt,
      Relay.strict_of.
    rewrite Hp. cbn [shown].
    repeat split.
    cbn [JS.body walk get own]. cbv [bind ret].
    destruct (Relay.field body (str "strictQuotesOnly")); reflexivity.
Qed.

Lemma relay_request_shape_example :
  exists r,
    snd (@Relay.post_query Ref.engine
           (Sample.always (Response true Sample.hello_openai))
           Scenario.relaxed_body Sample.relay_corpus) = [r] /\
    url r = str "https://api.openai.com/v1/chat/completions" /\
    method r = str "POST" /\
    header (str "Authorization") r = Some (str "Bearer ") /\
    keys (JS.body r) = [str "model"; str "max_tokens"; str "messages"] /\
    walk (JS.body r) [Key (str "max_tokens")] = inr (VNum (num 2000)) /\
    walk (JS.body r) [Key (str "messages")] =
      inr (VArr
             [VObj [(str "role", VStr (str "system"));
                    (str "content",
                     VStr (if match Relay.field Scenario.relaxed_body
                                    (str "strictQuotesOnly") with
                              | VUndefined => true
                              | flag => truthy flag
                              end
                           then Relay.strict_prompt
                           else Relay.relaxed_prompt))];
              VObj [(str "role", VStr (str "user"));
                    (str "content",
                     VStr (str "Documents:" ++ [LF; LF]
                             ++ lines [str "--- A ---"; str "Hello world"]
                             ++ [LF; LF] ++ str "Question: "
                             ++ str "What is this?"))]]).
Proof.
  apply (@relay_request_shape Ref.engine
           (Sample.always (Response true Sample.hello_openai))
           Scenario.relaxed_body Sample.relay_corpus (str "What is this?")
           (lines [str "--- A ---"; str "Hello world"])).
  - reflexivity.
  - vm_compute. discriminate.
  - discriminate.
  - vm_compute. reflexivity.
Defined.

(** X19: [POST /api/text] refuses a text that is missing, [null] or blank
    with status 400 and leaves the corpus as it is. *)
Theorem relay_text_rejected `{Engine} (now iso : jsstring) (body : value)
    (corpus : list Relay.doc) :
  Relay.field body (str "text") = VUndefined \/
  Relay.field body (str "text") = VNull \/
  (exists t, Relay.field body (str "text") = VStr t /\ trim t = []) ->
  Relay.post_text now iso body corpus
    = (corpus, Relay.failure 400 (str "No text provided")).
Proof.
  intros [E|[E|(t & E & Ht)]]; unfold Relay.post_text; rewrite E;
    cbn [Relay.blank]; try rewrite Ht; reflexivity.
Qed.

Lemma relay_text_rejected_example :
  @Relay.post_text Ref.engine (str "2") (str "2025-01-01T00:00:00.000Z")
     (VObj [(str "name", VStr (str "B")); (str "text", VStr (str "  "))])
     Sample.relay_corpus
    = (Sample.relay_corpus, Relay.failure 400 (str "No text provided")).
Proof.
  apply (@relay_text_rejected Ref.engine).
  right. right. exists (str "  "). split; [reflexivity | vm_compute; reflexivity].
Defined.

Lemma relay_text_stored `{Engine} (now iso : jsstring) (body : value)
    (corpus : list Relay.doc) (t : jsstring) :
  Relay.field body (str "text") = VStr t -> trim t <> [] ->
  fst (Relay.post_text now iso body corpus) =
  corpus ++ [Relay.MkDoc now
               (or_else (Relay.field body (str "name")) (VStr (str "Document")))
               t].
Proof.
  intros Ht Hne. unfold Relay.post_text. rewrite Ht. cbn [Relay.blank].
  destruct (trim t); [congruence|].
  unfold Relay.to_text, ToString. cbn [Relay.name].
  destruct (stringable
              (or_else (Relay.field body (str "name")) (VStr (str "Document"))));
    reflexivity.
Qed.

Lemma forallb_snoc (f : Relay.doc -> bool) (l : list Relay.doc) (d : Relay.doc) :
  forallb f (l ++ [d]) = forallb f l && f d.
Proof.
  rewrite forallb_app. cbn [forallb]. rewrite andb_true_r. reflexivity.
Qed.

(** X20: A text the relay accepts goes to the end of the corpus under
    the name sent along, or under [Document] when the name is missing or
    falsy.  When that name converts to a text the reply is 200 and
    reports the text's length as its size, and the context of the next
    query ends with the document's block, after the blocks of the
    documents that were there.  When it does not convert (an object with
    a [toString] member), line 30 throws after the document was pushed
    and before line 31 replies: the exception leaves the handler, the
    document stays, and every later query with a prompt throws on line
    44 without a request.  After [DELETE /api/documents] a query issues
    no request and gets the fixed reply. *)
Theorem relay_store_lifecycle `{Engine} (now iso : jsstring) (body : value)
    (corpus : list Relay.doc) (t : jsstring) (d : Relay.doc) :
  Relay.field body (str "text") = VStr t ->
  trim t <> [] ->
  d = Relay.MkDoc now
        (if truthy (Relay.field body (str "name"))
         then Relay.field body (str "name") else VStr (str "Document"))
        t ->
  fst (Relay.post_text now iso body corpus) = corpus ++ [d]
  /\
  (stringable (Relay.name d) = true ->
   (exists json,
      snd (Relay.post_text now iso body corpus) = Relay.Sent 200 json /\
      walk json [Key (str "document"); Key (str "size")]
        = inr (VNum (num (N.of_nat (length t))))) /\
   (forall n context,
      corpus <> [] ->
      Relay.context_of n corpus = inr context ->
      Relay.context_of n (corpus ++ [d]) =
      inr (context ++ [LF; LF] ++ str "--- " ++ shown (Relay.name d)
             ++ str " ---" ++ [LF] ++ firstn n t)))
  /\
  (stringable (Relay.name d) = false ->
   snd (Relay.post_text now iso body corpus)
     = Relay.Escaped TypeError_to_primitive /\
   forall (net : network) (query : value) (p : jsstring),
     Relay.field query (str "prompt") = VStr p -> trim p <> [] ->
     Relay.post_query net query (corpus ++ [d])
       = (Relay.Escaped TypeError_to_primitive, []))
  /\
  (forall (net : network) (query : value) (p : jsstring),
     Relay.field query (str "prompt") = VStr p -> trim p <> [] ->
     Relay.post_query net query
       (fst (Relay.delete_documents (fst (Relay.post_text now iso body corpus))))
       = (Relay.no_documents, [])).
Proof.
  intros Ht Hne Hd.
  assert (Hst : fst (Relay.post_text now iso body corpus) = corpus ++ [d]).
  { rewrite (relay_text_stored now iso body corpus t Ht Hne), Hd.
    reflexivity. }
  assert (Hname : Relay.name d
                  = or_else (Relay.field body (str "name")) (VStr (str "Document")))
    by (rewrite Hd; reflexivity).
  split; [exact Hst|]. split; [|split].
  - intros Hs. split.
    + unfold Relay.post_text. rewrite Ht. cbn [Relay.blank].
      destruct (trim t); [congruence|].
      unfold Relay.to_text, ToString. cbn [Relay.name].
      rewrite <- Hname, Hs. eexists. split; reflexivity.
    + intros n context Hc Hx. rewrite relay_context in Hx |- *.
      rewrite forallb_snoc, Hs, andb_true_r.
      destruct (forallb (fun d0 => stringable (Relay.name d0)) corpus);
        [|discriminate].
      injection Hx as <-. f_equal.
      destruct corpus as [|d0 ds]; [congruence|].
      rewrite map_app. cbn [map].
      rewrite (join_snoc [LF; LF]). subst d. reflexivity.
  - intros Hs. split.
    + unfold Relay.post_text. rewrite Ht. cbn [Relay.blank].
      destruct (trim t); [congruence|].
      unfold Relay.to_text, ToString. cbn [Relay.name].
      rewrite <- Hname, Hs. reflexivity.
    + intros net query p Hp Hpne.
      apply (post_query_unconvertible net query (corpus ++ [d]) p Hp Hpne).
      rewrite forallb_snoc, Hs. apply andb_false_r.
  - intros net query p Hp Hpne.
    unfold Relay.delete_documents. cbn [fst].
    unfold Relay.post_query. rewrite Hp. cbn [Relay.blank].
    destruct (trim p); [congruence | reflexivity].
Qed.

Lemma relay_store_lifecycle_example :
  fst (@Relay.post_text Ref.engine (str "2") (str "2025-01-01T00:00:00.000Z")
         Scenario.unnamed_body Sample.relay_corpus)
    = Sample.relay_corpus ++ [Scenario.unnamed_doc] /\
  snd (@Relay.post_text Ref.engine (str "2") (str "2025-01-01T00:00:00.000Z")
         Scenario.unnamed_body Sample.relay_corpus)
    = Relay.Escaped TypeError_to_primitive /\
  @Relay.context_of Ref.engine 2
     (Sample.relay_corpus
        ++ [Relay.MkDoc (str "2") (VStr (str "B")) (str "xyz")])
    = inr (lines [str "--- A ---"; str "He"] ++ [LF; LF] ++ str "--- "
             ++ str "B" ++ str " ---" ++ [LF] ++ str "xy").
Proof.
  destruct (@relay_store_lifecycle Ref.engine (str "2")
              (str "2025-01-01T00:00:00.000Z") Scenario.unnamed_body
              Sample.relay_corpus (str "xyz") Scenario.unnamed_doc
              eq_refl ltac:(vm_compute; discriminate) eq_refl)
    as (Hst & _ & Hbad & _).
  destruct (@relay_store_lifecycle Ref.engine (str "2")
              (str "2025-01-01T00:00:00.000Z") Scenario.text_body
              Sample.relay_corpus (str "xyz")
              (Relay.MkDoc (str "2") (VStr (str "B")) (str "xyz"))
              eq_refl ltac:(vm_compute; discriminate) eq_refl)
    as (_ & Hgood & _ & _).
  split; [exact Hst|]. split.
  - exact (proj1 (Hbad eq_refl)).
  - apply (proj2 (Hgood eq_refl) 2 (lines [str "--- A ---"; str "He"])).
    + discriminate.
    + vm_compute. reflexivity.
Defined.

(* ================================================================== *)
(** ** The development proxy *)
(* ================================================================== *)

Lemma rewrite_strip (key path : jsstring) :
  Vite.rewrite key path =
  match strip_prefix key path with
  | Some t => t
  | None => path
  end.
Proof.
  unfold Vite.rewrite. rewrite rmatch_lit. cbn [rest].
  destruct (strip_prefix key path); reflexivity.
Qed.

(** X21: The rewrite of a proxy entry removes the entry's key from the
    start of a path, once, and keeps what follows as it is, a later
    occurrence of the key included; a path that does not start with the
    key is left as it is, and so a path under one of the three keys is
    not changed by the rewrite of another entry. *)
Theorem proxy_rewrite :
  (forall key t, Vite.rewrite key (key ++ t) = t) /\
  (forall key path, strip_prefix key path = None ->
                    Vite.rewrite key path = path) /\
  (forall r1 r2 t, In r1 Vite.proxy -> In r2 Vite.proxy -> r1 <> r2 ->
                   Vite.rewrite (Vite.key r2) (Vite.key r1 ++ t)
                   = Vite.key r1 ++ t).
Proof.
  split; [|split].
  - intros key t. rewrite rewrite_strip, strip_prefix_app. reflexivity.
  - intros key path P. rewrite rewrite_strip, P. reflexivity.
  - intros r1 r2 t H1 H2 Hne. rewrite rewrite_strip.
    unfold Vite.proxy in H1, H2. cbn [In] in H1, H2.
    destruct H1 as [<-|[<-|[<-|[]]]]; destruct H2 as [<-|[<-|[<-|[]]]];
      try congruence; reflexivity.
Qed.

Lemma proxy_rewrite_example :
  Vite.rewrite (str "/openai") (str "/v1/openai/models") = str "/v1/openai/models" /\
  Vite.rewrite (str "/claude") (str "/openai/v1/chat/completions")
    = str "/openai/v1/chat/completions".
Proof.
  destruct proxy_rewrite as (_ & Hkeep & Hother).
  split.
  - apply Hkeep. vm_compute. reflexivity.
  - apply (Hother (Vite.Route (str "/openai") (str "https://api.openai.com"))
             (Vite.Route (str "/claude") (str "https://api.anthropic.com"))
             (str "/v1/chat/completions")).
    + left. reflexivity.
    + right. left. reflexivity.
    + discriminate.
Defined.

Lemma client_answer_spec_example :
  Client.answer_of Sample.trailing = trim (str "A ") /\
  Client.answer_of Sample.plain = trim Sample.plain.
Proof.
  split.
  - apply (proj1 (client_answer_spec Sample.trailing) (str "A ")
             Sample.trailing_trailer).
    apply split_at_first. vm_compute. reflexivity.
  - apply (proj2 (client_answer_spec Sample.plain)).
    apply split_at_absent. vm_compute. reflexivity.
Defined.
